(** * A shallow embedding of [trading_simulator.py]

    The simulator draws a price series with a multiplicative random walk,
    shows it as a scrolling bar chart and lets the user buy and sell with
    single keystrokes.  This file embeds the class [TradingSimulator]:
    its constructor, the price generator, the column renderer with the
    scrolling buffer, and the body of the interactive loop; and the
    function [tuple_type] that reads the image shape from the command
    line.

    Conventions of the embedding.
    - Python [int]s are [Z].  Python [float]s are exact rationals [Q]: the
      products and quotients of the program are taken exactly, the rounding
      of binary64 is not part of the model.
    - [int(x)] on a float truncates toward zero ([py_int]).
    - The three sources of input of the loop are explicit arguments of one
      iteration: the sample of [random.random()] behind [random.uniform],
      the key code returned by [cv2.waitKey] and the clock value returned
      by [time.time()].
    - Exceptions are values of [Error]; a computation that may raise has a
      type [Error + A]. *)

From Stdlib Require Import ZArith QArith Qround Lia Lqa Bool Ascii.
From stdpp Require Import base option list.

Open Scope Z_scope.

(** ** Python primitives *)

Inductive Error : Set :=
| ZeroDivisionError
| AssertionError
| ValueError
| IndexError
| TypeError.

Definition Exc (A : Type) : Type := (Error + A)%type.

Definition ret {A} (a : A) : Exc A := inr a.
Definition raise {A} (e : Error) : Exc A := inl e.
Definition bind {A B} (m : Exc A) (k : A -> Exc B) : Exc B :=
  match m with
  | inl e => inl e
  | inr a => k a
  end.

Notation "x <- m ;; k" := (bind m (fun x => k))
  (at level 100, m at next level, right associativity).

(** [int(x)] for a float [x]: truncation toward zero. *)
Definition py_int (x : Q) : Z := Z.quot (Qnum x) (Zpos (Qden x)).

(** [random.uniform(a, b)] is [a + (b - a) * random()]; [r] is the sample
    of [random()].  The library documents that the end point [b] may be
    reached, so a sample ranges over the closed interval from 0 to 1. *)
Definition uniform (r a b : Q) : Q := a + (b - a) * r.

Definition unit_sample (r : Q) : Prop := (0 <= r <= 1)%Q.

(** ** The price process *)

Module PriceProcess.

(** [TradingSimulator.number_generator]; [r] is the random sample used by
    the one call of [random.uniform] that the chosen branch makes. *)
Definition number_generator (r : Q) (previous_value expected_value : Z) : Z :=
  let multiplier :=
    if previous_value >? expected_value
    then (inject_Z previous_value * uniform r 0.75 1.1)%Q
    else (inject_Z previous_value * uniform r 0.9 1.25)%Q in
  py_int multiplier.

(** [TradingSimulator.get_expected_value]: [int(4.5 * 10)]. *)
Definition get_expected_value (n_max n_min : Z) : Z := py_int (4.5 * 10).

(** The prices after a run of draws, oldest draw first. *)
Definition price_path (expected_value : Z) (rs : list Q) (start : Z) : Z :=
  fold_left (fun p r => number_generator r p expected_value) rs start.

End PriceProcess.

(** A computation fails when it raises. *)
Definition fails {A} (m : Exc A) : Prop := exists e, m = inl e.

(** ** The simulator object *)

(** The fields that [__init__] sets.  [self.trades] is mutated by the loop
    and lives in the loop state below. *)
Record TradingSimulator : Type := {
  n_max : Z;
  n_min : Z;
  n_ticks : Z;
  t_update : Q;
  image_shape : Z * Z;                 (* (height, width) *)
  show_expected_value_line : bool;
  possible_range : Z;
  expected_value : Z;
  BAR_WIDTH : Z;
  BAR_HEIGHT_MULTIPLIER : Q
}.

(** [a // b] and [a / b] on ints raise on a zero divisor; [Z.div] rounds
    toward minus infinity like [//]. *)
Definition py_floordiv (a b : Z) : Exc Z :=
  if b =? 0 then raise ZeroDivisionError else ret (a / b).

Definition py_truediv (a b : Z) : Exc Q :=
  if b =? 0 then raise ZeroDivisionError else ret (inject_Z a / inject_Z b)%Q.

Definition py_assert (b : bool) : Exc unit :=
  if b then ret tt else raise AssertionError.

(** [TradingSimulator.__init__]. *)
Definition __init__ (n_max n_min n_ticks : Z) (t_update : Q)
    (image_shape : Z * Z) (show_expected_value_line : bool)
  : Exc TradingSimulator :=
  let possible_range := 9 * (n_max - n_min) in
  let expected_value := PriceProcess.get_expected_value n_max n_min in
  bar_width <- py_floordiv (snd image_shape) n_ticks ;;
  bar_height_multiplier <- py_truediv (fst image_shape) possible_range ;;
  _ <- py_assert (snd image_shape mod n_ticks =? 0) ;;
  ret {| n_max := n_max;
         n_min := n_min;
         n_ticks := n_ticks;
         t_update := t_update;
         image_shape := image_shape;
         show_expected_value_line := show_expected_value_line;
         possible_range := possible_range;
         expected_value := expected_value;
         BAR_WIDTH := bar_width;
         BAR_HEIGHT_MULTIPLIER := bar_height_multiplier |}.

(** [TradingSimulator()], the object that the script builds. *)
Definition default_simulator : Exc TradingSimulator :=
  __init__ 10 0 100 0.02 (250, 1000) true.

(** ** The chart buffer *)

(** An array of shape (height, width, 3) is a list of rows, a row is a list
    of pixels and a pixel has three channels. *)
Definition Pixel : Type := (Z * Z * Z)%type.
Abbreviation Image := (list (list Pixel)).

Definition has_shape (h w : nat) (a : Image) : Prop :=
  length a = h /\ Forall (fun row => length row = w) a.

(** The pixel at row [i] and pixel-column [j]. *)
Definition pixel (a : Image) (i j : nat) : option Pixel :=
  row ← a !! i; row !! j.

(** [np.zeros((h, w, 3))]; numpy refuses a negative dimension. *)
Definition np_zeros (h w : Z) : Exc Image :=
  if (h <? 0) || (w <? 0) then raise ValueError
  else ret (replicate (Z.to_nat h) (replicate (Z.to_nat w) (0, 0, 0))).

Definition paint (colour : Pixel) (row : list Pixel) : list Pixel :=
  replicate (length row) colour.

(** [a[i] = colour] for an integer [i]: a negative index counts from the
    end, an index outside of [-n .. n-1] raises [IndexError]. *)
Definition set_row (i : Z) (colour : Pixel) (a : Image) : Exc Image :=
  let n := Z.of_nat (length a) in
  if (i <? - n) || (n <=? i) then raise IndexError
  else ret (alter (paint colour) (Z.to_nat (if i <? 0 then i + n else i)) a).

(** A bound of a slice on an axis of length [n]: wrapped once when negative
    and clipped to [0 .. n]. *)
Definition slice_index (n i : Z) : Z :=
  if i <? 0 then Z.max 0 (i + n) else Z.min i n.

(** [a[lo:hi] = colour]: a slice assignment never raises. *)
Definition set_rows (lo hi : Z) (colour : Pixel) (a : Image) : Image :=
  let n := Z.of_nat (length a) in
  let lo' := slice_index n lo in
  let hi' := slice_index n hi in
  imap (fun k row =>
          if (lo' <=? Z.of_nat k) && (Z.of_nat k <? hi')
          then paint colour row else row) a.

(** The row indices that [update] computes: [int(expected_value * m)],
    [int((next_val - 1) * m)] and [int(m * next_val)] for the multiplier
    [m = BAR_HEIGHT_MULTIPLIER]. *)
Definition expected_row (sim : TradingSimulator) : Z :=
  py_int (inject_Z (expected_value sim) * BAR_HEIGHT_MULTIPLIER sim).

Definition previous_row (sim : TradingSimulator) (next_val : Z) : Z :=
  py_int (inject_Z (next_val - 1) * BAR_HEIGHT_MULTIPLIER sim).

Definition value_row (sim : TradingSimulator) (next_val : Z) : Z :=
  py_int (BAR_HEIGHT_MULTIPLIER sim * inject_Z next_val).

(** Lines 154-177 of [update]: the new column.  [colour] is bound in the
    source only when [bought] or [sold] holds, and read only then. *)
Definition render_column (sim : TradingSimulator)
    (next_val : Z) (bought sold : bool) : Exc Image :=
  next_col <- np_zeros (fst (image_shape sim)) (BAR_WIDTH sim) ;;
  let colour : Pixel := if bought then (0, 255, 0) else (0, 0, 255) in
  next_col <- (if show_expected_value_line sim
               then set_row (expected_row sim) (255, 0, 0) next_col
               else ret next_col) ;;
  let next_col :=
    if bought || sold then
      if next_val >? expected_value sim
      then set_rows (expected_row sim) (previous_row sim next_val)
             colour next_col
      else set_rows (previous_row sim next_val) (expected_row sim)
             colour next_col
    else next_col in
  set_row (value_row sim next_val) (255, 255, 255) next_col.

(** An integer index that an axis of [height sim] rows accepts. *)
Definition in_rows (sim : TradingSimulator) (i : Z) : Prop :=
  - fst (image_shape sim) <= i < fst (image_shape sim).

(** [np.delete(img, obj=np.s_[:k], axis=1)]. *)
Definition np_delete_columns (k : Z) (img : Image) : Image :=
  (fun row => drop (Z.to_nat (slice_index (Z.of_nat (length row)) k)) row)
    <$> img.

(** [np.concatenate((a, b), axis=1)]; the other axes must agree. *)
Definition np_concatenate_columns (a b : Image) : Exc Image :=
  if (length a =? length b)%nat then ret (zip_with app a b)
  else raise ValueError.

(** Lines 179-181 of [update]: drop the oldest bar, append the new one. *)
Definition append_and_scroll (sim : TradingSimulator)
    (img next_col : Image) : Exc Image :=
  let img := np_delete_columns (BAR_WIDTH sim) img in
  np_concatenate_columns img next_col.

(** [TradingSimulator.update]. *)
Definition update (sim : TradingSimulator) (img : Image)
    (next_val : Z) (bought sold : bool) : Exc Image :=
  next_col <- render_column sim next_val bought sold ;;
  append_and_scroll sim img next_col.

(** The buffer after a run of columns, oldest first. *)
Fixpoint scroll_all (sim : TradingSimulator) (cols : list Image)
    (img : Image) : Exc Image :=
  match cols with
  | [] => ret img
  | c :: cols => img' <- append_and_scroll sim img c ;; scroll_all sim cols img'
  end.

(** The buffer after a run of calls of [update], oldest first; a call is a
    value with its two markers. *)
Fixpoint update_all (sim : TradingSimulator) (calls : list (Z * bool * bool))
    (img : Image) : Exc Image :=
  match calls with
  | [] => ret img
  | (v, bought, sold) :: calls =>
      img' <- update sim img v bought sold ;; update_all sim calls img'
  end.

(** ** The interactive loop *)

(** One entry of [self.trades]: the dictionary with keys "buy" and "sell". *)
Record Trade : Type := { buy : Q; sell : Z }.

(** What the loop prints, one constructor per [print] of [__call__]. *)
Inductive Output : Type :=
| BoughtAt (value : Z)                       (* "Bought at: ..." *)
| NoBoughtShares                             (* "No bought shares." *)
| SoldAt (value : Z)                         (* "Sold at: ..." *)
| Profit (profit bought : Q) (sold : Z)      (* "Profit: ... (Buy: ..., Sell: ...)" *)
| PositionStatus (mean : Q)                  (* "Position status: ..." *)
| Hotkeys                                    (* the list of commands *)
| Step (value : Z)                           (* "Step: ..." *)
| Elapsed (seconds : Q).                     (* the time since the last tick *)

(** The variables of [__call__], with [self.trades]. *)
Record State : Type := {
  trades : list Trade;
  bought_position : option (list Z);
  next_val : Z;
  previous_step_time : Q;
  img : Image;
  transaction_made_in_tick : bool
}.

(** What one pass through the loop body reads from the outside world. *)
Record Input : Type := {
  sample : Q;          (* random.random() behind random.uniform *)
  key : Z;             (* cv2.waitKey(1) *)
  clock : Q            (* time.time() *)
}.

(** How a pass through the loop body ends: at the bottom of the body, or
    at the [break] of the ESC branch. *)
Inductive Step_result : Type :=
| Continue (s : State) (out : list Output)
| Break (s : State).

Definition ord (c : ascii) : Z := Z.of_N (N_of_ascii c).

(** [np.mean] of a list of ints, as a float; a float is kept in lowest
    terms so that equal floats are equal terms.  The loop never calls it on
    an empty list: [bought_position] is [None] or holds an entry. *)
Definition np_mean (l : list Z) : Q :=
  Qred (inject_Z (foldr Z.add 0 l) / inject_Z (Z.of_nat (length l))).

(** The expression printed by the status key. *)
Definition position_status (bought_position : option (list Z)) : Q :=
  match bought_position with
  | Some entries => np_mean entries
  | None => 0%Q
  end.

Definition set_next_val (v : Z) (s : State) : State :=
  {| trades := trades s;
     bought_position := bought_position s;
     next_val := v;
     previous_step_time := previous_step_time s;
     img := img s;
     transaction_made_in_tick := transaction_made_in_tick s |}.

(** Lines 76-116: the chain of branches on the key. *)
Definition dispatch (sim : TradingSimulator) (k : Z) (s : State)
  : Exc Step_result :=
  if k =? 27 then
    ret (Break s)
  else if (k =? ord "c") && negb (transaction_made_in_tick s) then
    let position :=
      match bought_position s with
      | None => [next_val s]
      | Some entries => entries ++ [next_val s]
      end in
    img' <- update sim (img s) (next_val s) true false ;;
    ret (Continue
           {| trades := trades s;
              bought_position := Some position;
              next_val := next_val s;
              previous_step_time := previous_step_time s;
              img := img';
              transaction_made_in_tick := true |}
           [BoughtAt (next_val s)])
  else if (k =? ord "v") && bool_decide (bought_position s = None)
          && negb (transaction_made_in_tick s) then
    ret (Continue s [NoBoughtShares])
  else if (k =? ord "v") && negb (transaction_made_in_tick s) then
    img' <- update sim (img s) (next_val s) false true ;;
    mean_bought_position <-
      match bought_position s with
      | Some entries => ret (np_mean entries)
      | None => raise TypeError      (* excluded by the branch above *)
      end ;;
    ret (Continue
           {| trades := trades s ++ [{| buy := mean_bought_position;
                                        sell := next_val s |}];
              bought_position := None;
              next_val := next_val s;
              previous_step_time := previous_step_time s;
              img := img';
              transaction_made_in_tick := true |}
           [SoldAt (next_val s);
            Profit (Qred (mean_bought_position - inject_Z (next_val s)))
                   mean_bought_position (next_val s)])
  else if k =? ord "s" then
    ret (Continue s [PositionStatus (position_status (bought_position s))])
  else if k =? ord "q" then
    ret (Continue s [Hotkeys])
  else
    ret (Continue s []).

(** Lines 118-125: the tick gate. *)
Definition tick_gate (sim : TradingSimulator) (current_time : Q) (s : State)
  : Exc (State * list Output) :=
  if Qlt_le_dec (t_update sim) (current_time - previous_step_time s) then
    img' <- (if transaction_made_in_tick s then ret (img s)
             else update sim (img s) (next_val s) false false) ;;
    ret ({| trades := trades s;
            bought_position := bought_position s;
            next_val := next_val s;
            previous_step_time := current_time;
            img := img';
            transaction_made_in_tick := false |},
         [Step (next_val s);
          Elapsed (Qred (current_time - previous_step_time s))])
  else ret (s, []).

(** Lines 73-125: the loop body after the price has moved. *)
Definition body (sim : TradingSimulator) (k : Z) (current_time : Q)
    (s : State) : Exc Step_result :=
  r <- dispatch sim k s ;;
  match r with
  | Break s => ret (Break s)
  | Continue s out =>
      t <- tick_gate sim current_time s ;;
      ret (Continue (fst t) (out ++ snd t))
  end.

(** One pass through the [while] loop: the price moves, then the body. *)
Definition iteration (sim : TradingSimulator) (i : Input) (s : State)
  : Exc Step_result :=
  body sim (key i) (clock i)
    (set_next_val
       (PriceProcess.number_generator (sample i) (next_val s)
          (expected_value sim)) s).

(** The loop over a finite script of inputs: it stops at the first [break]
    or exception, otherwise when the script is used up. *)
Fixpoint run (sim : TradingSimulator) (script : list Input) (s : State)
  : Exc Step_result :=
  match script with
  | [] => ret (Continue s [])
  | i :: script =>
      r <- iteration sim i s ;;
      match r with
      | Break s => ret (Break s)
      | Continue s out =>
          r <- run sim script s ;;
          match r with
          | Break s => ret (Break s)
          | Continue s out' => ret (Continue s (out ++ out'))
          end
      end
  end.

(** The state in which [__call__] enters the loop; [now] is the clock
    value read before. *)
Definition enter_loop (sim : TradingSimulator) (now : Q) : Exc State :=
  img <- np_zeros (fst (image_shape sim)) (snd (image_shape sim)) ;;
  ret {| trades := [];
         bought_position := None;
         next_val := expected_value sim;
         previous_step_time := now;
         img := img;
         transaction_made_in_tick := false |}.

(** [TradingSimulator.__call__] up to the end of the loop, on a script of
    inputs; the trades are written to a file after the loop, which is not
    modelled. *)
Definition __call__ (sim : TradingSimulator) (now : Q) (script : list Input)
  : Exc Step_result :=
  s <- enter_loop sim now ;;
  run sim script s.

(** ** Vocabulary of the statements *)

(** The tick gate opens at clock value [current_time]. *)
Definition gate_fires (sim : TradingSimulator) (current_time : Q)
    (s : State) : Prop :=
  (t_update sim < current_time - previous_step_time s)%Q.

(** The buy key or the sell key. *)
Definition buy_or_sell (k : Z) : Prop := k = ord "c" \/ k = ord "v".

(** The ledger (open position, trade history) and the chart of [s'] are
    those of [s]. *)
Definition same_ledger_and_chart (s s' : State) : Prop :=
  trades s' = trades s /\
  bought_position s' = bought_position s /\
  img s' = img s.

(** The fields of [TradingSimulator()]. *)
Definition default_fields : TradingSimulator :=
  {| n_max := 10;
     n_min := 0;
     n_ticks := 100;
     t_update := 0.02;
     image_shape := (250, 1000);
     show_expected_value_line := true;
     possible_range := 90;
     expected_value := 45;
     BAR_WIDTH := 10;
     BAR_HEIGHT_MULTIPLIER := 250 # 90 |}.

(** A simulator with a chart of 9 rows and 2 bars of 2 pixel-columns, the
    result of [TradingSimulator(n_ticks=2, image_shape=(9, 4))]. *)
Definition small_fields : TradingSimulator :=
  {| n_max := 10;
     n_min := 0;
     n_ticks := 2;
     t_update := 0.02;
     image_shape := (9, 4);
     show_expected_value_line := true;
     possible_range := 90;
     expected_value := 45;
     BAR_WIDTH := 2;
     BAR_HEIGHT_MULTIPLIER := 9 # 90 |}.

Definition black (h w : nat) : Image := replicate h (replicate w (0, 0, 0)).

(** A state of the small simulator with no open position, one past trade
    and the flag clear; and the same state after a transaction of the
    current tick. *)
Definition flat_state : State :=
  {| trades := [{| buy := 6; sell := 10 |}];
     bought_position := None;
     next_val := 45;
     previous_step_time := 0;
     img := black 9 4;
     transaction_made_in_tick := false |}.

Definition traded_state : State :=
  {| trades := [{| buy := 6; sell := 10 |}];
     bought_position := None;
     next_val := 45;
     previous_step_time := 0;
     img := black 9 4;
     transaction_made_in_tick := true |}.

(** Two presses of a transaction key before the tick gate opens. *)
Definition impatient_session : list Input :=
  [ {| sample := 0.5; key := ord "c"; clock := 0.01 |};
    {| sample := 0.5; key := ord "v"; clock := 0.02 |} ].

(** A session in which the price falls from 45 to 5, a share is bought at
    5 and another at 7, both are sold at 10 and the status is asked; the
    tick gate opens in the pass of each transaction. *)
Definition quiet (r : Q) : Input := {| sample := r; key := -1; clock := 0 |}.

Definition trading_session : list Input :=
  replicate 15 (quiet 0) ++
  [ {| sample := 0; key := ord "c"; clock := 1 |};
    {| sample := 1; key := -1; clock := 1 |};
    {| sample := 1; key := ord "c"; clock := 2 |};
    {| sample := 1; key := -1; clock := 2 |};
    {| sample := 1; key := ord "v"; clock := 3 |};
    {| sample := 1; key := ord "s"; clock := 3 |} ].

(** A session of seven passes without a keystroke in which the price
    climbs from 45 to 90; the tick gate opens in the last pass only. *)
Definition climbing_session : list Input :=
  [ {| sample := 1; key := -1; clock := 0 |};
    {| sample := 1; key := -1; clock := 0 |};
    {| sample := 1; key := -1; clock := 0 |};
    {| sample := 1; key := -1; clock := 0 |};
    {| sample := 1; key := -1; clock := 0 |};
    {| sample := 1; key := -1; clock := 0 |};
    {| sample := 0.8; key := -1; clock := 1 |} ].

(** A simulator whose range of values ends below the reference value, the
    result of [TradingSimulator(n_max=4, n_ticks=2, image_shape=(9, 4))]. *)
Definition narrow_fields : TradingSimulator :=
  {| n_max := 4;
     n_min := 0;
     n_ticks := 2;
     t_update := 0.02;
     image_shape := (9, 4);
     show_expected_value_line := true;
     possible_range := 36;
     expected_value := 45;
     BAR_WIDTH := 2;
     BAR_HEIGHT_MULTIPLIER := 9 # 36 |}.


(** A pass in which ESC is pressed. *)
Definition escape_pass : Input := {| sample := 0.5; key := 27; clock := 1 |}.

(** ** Vocabulary of the chart *)

(** The colours that [update] writes before the white marker: the zero of
    [np.zeros], the reference line and the two transaction colours. *)
Definition dark_colours : list Pixel :=
  [(0, 0, 0); (255, 0, 0); (0, 255, 0); (0, 0, 255)].

(** Every row of [a] is [w] pixels of one colour, a colour of [S]. *)
Definition plain_rows (S : Pixel -> Prop) (w : nat) (a : Image) : Prop :=
  forall k row, a !! k = Some row -> exists c, S c /\ row = replicate w c.

(** The columns of a run of calls of [update], oldest first: the first
    call that raises ends the run. *)
Fixpoint render_all (sim : TradingSimulator) (calls : list (Z * bool * bool))
  : Exc (list Image) :=
  match calls with
  | [] => ret []
  | (v, bought, sold) :: calls =>
      col <- render_column sim v bought sold ;;
      cols <- render_all sim calls ;;
      ret (col :: cols)
  end.

(** Columns of [h] rows side by side, the first one leftmost. *)
Definition join_columns (h : nat) (cols : list Image) : Image :=
  foldr (zip_with app) (replicate h []) cols.

(** ** Vocabulary of the loop *)

(** The state in which a pass or a session ends. *)
Definition state_of (r : Step_result) : State :=
  match r with
  | Continue s _ => s
  | Break s => s
  end.

(** The price after the draw of a pass. *)
Definition drawn (sim : TradingSimulator) (i : Input) (s : State) : Z :=
  PriceProcess.number_generator (sample i) (next_val s) (expected_value sim).

(** The lines of the log that report a transaction, and those that report
    a tick. *)
Definition is_transaction (o : Output) : bool :=
  match o with
  | BoughtAt _ | SoldAt _ => true
  | _ => false
  end.

Definition is_step (o : Output) : bool :=
  match o with
  | Step _ => true
  | _ => false
  end.

Definition transactions (out : list Output) : nat :=
  length (List.filter is_transaction out).

Definition ticks (out : list Output) : nat :=
  length (List.filter is_step out).

(** One when a transaction was made in the current tick. *)
Definition flag_weight (s : State) : nat :=
  if transaction_made_in_tick s then 1%nat else 0%nat.

(** The state after the buy branch and after the sell branch of the key
    dispatch; [img'] is the buffer that [update] returned. *)
Definition bought_state (s : State) (img' : Image) : State :=
  {| trades := trades s;
     bought_position :=
       Some (match bought_position s with
             | None => [next_val s]
             | Some entries => entries ++ [next_val s]
             end);
     next_val := next_val s;
     previous_step_time := previous_step_time s;
     img := img';
     transaction_made_in_tick := true |}.

Definition sold_state (s : State) (entries : list Z) (img' : Image) : State :=
  {| trades := trades s ++ [{| buy := np_mean entries; sell := next_val s |}];
     bought_position := None;
     next_val := next_val s;
     previous_step_time := previous_step_time s;
     img := img';
     transaction_made_in_tick := true |}.

(** ** The command line *)

(** [tuple_type] turns the argument of [--image_shape] into a tuple of
    ints.  A [str] is the list of its code points.  [s.replace(c, "")] for
    a one-character [c] drops every occurrence of [c]; [s.split(c)] cuts at
    every occurrence of [c] and returns at least one piece. *)
Definition str_remove (c : Z) (s : list Z) : list Z :=
  List.filter (fun x => negb (x =? c)) s.

Fixpoint str_split (sep : Z) (s : list Z) : list (list Z) :=
  match s with
  | [] => [[]]
  | c :: s =>
      if c =? sep then [] :: str_split sep s
      else match str_split sep s with
           | piece :: pieces => (c :: piece) :: pieces
           | [] => [[c]]
           end
  end.

(** [tuple(map(f, pieces))]: [f] is applied from the left and the first
    exception ends the conversion. *)
Fixpoint tuple_map {A B} (f : A -> Exc B) (pieces : list A) : Exc (list B) :=
  match pieces with
  | [] => ret []
  | piece :: pieces =>
      n <- f piece ;;
      ns <- tuple_map f pieces ;;
      ret (n :: ns)
  end.

(** Line 185: the three replacements. *)
Definition stripped (value : list Z) : list Z :=
  str_remove (ord " ") (str_remove (ord ")") (str_remove (ord "(") value)).

(** [tuple_type].  The builtin [int] on a [str] is the argument [int]: what
    is proved of [tuple_type] holds whatever [int] accepts and returns. *)
Definition tuple_type (int : list Z -> Exc Z) (value : list Z)
  : Exc (list Z) :=
  let value := stripped value in
  tuple_map int (str_split (ord ",") value).

(** The number of commas of a string. *)
Definition commas (s : list Z) : nat :=
  length (List.filter (fun x => x =? ord ",") s).

(** A reading of decimal numerals, for examples: the value of a string of
    ASCII digits that is not empty, and [ValueError] for any other
    string. *)
Fixpoint digits_value (acc : Z) (s : list Z) : Exc Z :=
  match s with
  | [] => ret acc
  | c :: s =>
      if (ord "0" <=? c) && (c <=? ord "9")
      then digits_value (10 * acc + (c - ord "0")) s
      else raise ValueError
  end.

Definition int_of_digits (s : list Z) : Exc Z :=
  match s with
  | [] => raise ValueError
  | _ => digits_value 0 s
  end.

(** The strings "(250, 1000)", "250" and "1000". *)
Definition bracketed_shape : list Z :=
  ord <$> ["("; "2"; "5"; "0"; ","; " "; "1"; "0"; "0"; "0"; ")"]%char.

Definition height_digits : list Z := ord <$> ["2"; "5"; "0"]%char.

Definition width_digits : list Z := ord <$> ["1"; "0"; "0"; "0"]%char.

(** * Properties *)

Import PriceProcess.

(** ** Python primitives *)

Lemma py_int_floor (x : Q) : (0 <= x)%Q -> py_int x = Qfloor x.
Proof.
  destruct x as [n d]. unfold Qle, py_int, Qfloor. simpl. intros H.
  apply Z.quot_div_nonneg; lia.
Qed.

Lemma inject_Z_nonneg (p : Z) : 0 <= p -> (0 <= inject_Z p)%Q.
Proof. intros H. unfold Qle. simpl. lia. Qed.

(** The draws of [random.uniform(a, b)] are the points between [a] and
    [b]: every sample gives one, and every point is given by a sample. *)
Lemma uniform_between (r a b : Q) :
  unit_sample r -> (a <= b)%Q -> (a <= uniform r a b <= b)%Q.
Proof.
  unfold unit_sample, uniform. intros [H0 H1] Hab. split; nra.
Qed.

Lemma uniform_onto (a b m : Q) :
  (a < b)%Q -> (a <= m <= b)%Q ->
  exists r, unit_sample r /\ (uniform r a b == m)%Q.
Proof.
  intros Hab [Ha Hb]. exists ((m - a) / (b - a))%Q. split.
  - unfold unit_sample. split.
    + apply Qle_shift_div_l; lra.
    + apply Qle_shift_div_r; lra.
  - unfold uniform. field. lra.
Qed.

(** ** The price process *)

Lemma scaled_bounds (p : Z) (m : Q) :
  0 <= p -> (0.75 <= m <= 1.25)%Q ->
  0 <= py_int (inject_Z p * m) /\
  Qfloor (inject_Z p * 0.75) <= py_int (inject_Z p * m) /\
  (inject_Z (py_int (inject_Z p * m)) <= inject_Z p * 1.25)%Q.
Proof.
  intros Hp [Hlo Hhi].
  pose proof (inject_Z_nonneg p Hp) as Hq.
  assert (H0 : (0 <= inject_Z p * m)%Q) by nra.
  rewrite (py_int_floor _ H0). repeat split.
  - change 0 with (Qfloor 0). apply Qfloor_resp_le. exact H0.
  - apply Qfloor_resp_le. nra.
  - eapply Qle_trans; [apply Qfloor_le |]. nra.
Qed.

(** The same bounds hold when the product is rounded before it is
    truncated, for any rounding [rnd] that is monotone and leaves the
    quarters of the integers below [2 ^ 53] as they are, as rounding to
    the nearest binary64 number does. *)
Lemma rounded_bounds (rnd : Q -> Q) (p : Z) (m : Q) :
  (forall x y, (x <= y)%Q -> (rnd x <= rnd y)%Q) ->
  (forall k, 0 <= k < 2 ^ 53 -> (rnd (k # 4) == k # 4)%Q) ->
  0 <= p < 2 ^ 50 -> (0.75 <= m <= 1.25)%Q ->
  0 <= py_int (rnd (inject_Z p * m)%Q) /\
  Qfloor (inject_Z p * 0.75) <= py_int (rnd (inject_Z p * m)%Q) /\
  (inject_Z (py_int (rnd (inject_Z p * m)%Q)) <= inject_Z p * 1.25)%Q.
Proof.
  intros Hmono Hexact Hp [Hlo Hhi].
  pose proof (inject_Z_nonneg p (proj1 Hp)) as Hq.
  assert (E3 : (inject_Z p * 0.75 == 3 * p # 4)%Q)
    by (unfold Qeq; simpl; lia).
  assert (E5 : (inject_Z p * 1.25 == 5 * p # 4)%Q)
    by (unfold Qeq; simpl; lia).
  assert (L : (inject_Z p * 0.75 <= rnd (inject_Z p * m)%Q)%Q).
  { rewrite E3, <- (Hexact (3 * p)) by lia. apply Hmono. rewrite <- E3. nra. }
  assert (U : (rnd (inject_Z p * m)%Q <= inject_Z p * 1.25)%Q).
  { rewrite E5, <- (Hexact (5 * p)) by lia. apply Hmono. rewrite <- E5. nra. }
  assert (H0 : (0 <= rnd (inject_Z p * m)%Q)%Q) by nra.
  rewrite (py_int_floor _ H0). repeat split.
  - change 0 with (Qfloor 0). apply Qfloor_resp_le. exact H0.
  - apply Qfloor_resp_le. exact L.
  - eapply Qle_trans; [apply Qfloor_le | exact U].
Qed.

(** The generator truncates [previous * m] for a multiplier [m] drawn
    from the interval of its branch; both intervals lie between 0.75 and
    1.25. *)
Lemma multiplier_range (r : Q) (previous reference : Z) :
  unit_sample r ->
  let m := if previous >? reference
           then uniform r 0.75 1.1 else uniform r 0.9 1.25 in
  number_generator r previous reference = py_int (inject_Z previous * m) /\
  (if previous >? reference
   then 0.75 <= m <= 1.1 else 0.9 <= m <= 1.25)%Q /\
  (0.75 <= m <= 1.25)%Q.
Proof.
  intros Hr. unfold number_generator.
  destruct (previous >? reference); simpl.
  - split; [reflexivity |].
    destruct (uniform_between r 0.75 1.1 Hr) as [H1 H2]; [lra |].
    repeat split; lra.
  - split; [reflexivity |].
    destruct (uniform_between r 0.9 1.25 Hr) as [H1 H2]; [lra |].
    repeat split; lra.
Qed.

Lemma number_generator_range (r : Q) (previous reference : Z) :
  0 <= previous -> unit_sample r ->
  0 <= number_generator r previous reference /\
  Qfloor (inject_Z previous * 0.75) <= number_generator r previous reference /\
  (inject_Z (number_generator r previous reference)
   <= inject_Z previous * 1.25)%Q.
Proof.
  intros Hp Hr.
  destruct (multiplier_range r previous reference Hr) as (-> & _ & Hm).
  apply scaled_bounds; assumption.
Qed.



(** C8.  From a previous value of zero the generator returns zero, for
    every reference value and every draw: zero is absorbing. *)
Theorem zero_is_absorbing (r : Q) (reference : Z) :
  number_generator r 0 reference = 0.
Proof.
  unfold number_generator. destruct (0 >? reference); reflexivity.
Qed.

Lemma number_generator_below_four (r : Q) (previous reference : Z) :
  unit_sample r -> 0 <= previous < 4 ->
  0 <= number_generator r previous reference <= previous.
Proof.
  intros Hr [H0 H4].
  destruct (number_generator_range r previous reference H0 Hr)
    as (Hn & _ & Hu).
  split; [exact Hn |].
  assert (Hlt : (inject_Z (number_generator r previous reference)
                 < inject_Z (previous + 1))%Q).
  { eapply Qle_lt_trans; [exact Hu |].
    rewrite inject_Z_plus.
    assert (inject_Z previous < inject_Z 4)%Q by (rewrite <- Zlt_Qlt; exact H4).
    change (inject_Z 4) with 4%Q in *. change (inject_Z 1) with 1%Q. lra. }
  rewrite <- Zlt_Qlt in Hlt. lia.
Qed.

Lemma price_path_below_four (reference : Z) (rs : list Q) (start : Z) :
  Forall unit_sample rs -> 0 <= start < 4 ->
  0 <= price_path reference rs start <= start.
Proof.
  intros Hrs. revert start.
  induction Hrs as [| r rs Hr _ IH]; intros start Hs.
  - unfold price_path. simpl. lia.
  - unfold price_path. simpl.
    pose proof (number_generator_below_four r start reference Hr Hs) as Hn.
    specialize (IH (number_generator r start reference)).
    unfold price_path in IH. lia.
Qed.

(** C9.  From a previous value among 0, 1, 2 and 3 the generator returns
    at most the previous value, for every reference value and every draw;
    so a price below 4 stays below 4, and after any run of draws the price
    is at most what it was. *)
Theorem below_four_never_rises (r : Q) (rs : list Q)
    (previous reference : Z) :
  unit_sample r -> Forall unit_sample rs -> 0 <= previous < 4 ->
  number_generator r previous reference <= previous /\
  0 <= number_generator r previous reference < 4 /\
  0 <= price_path reference rs previous <= previous.
Proof.
  intros Hr Hrs Hp.
  pose proof (number_generator_below_four r previous reference Hr Hp).
  pose proof (price_path_below_four reference rs previous Hrs Hp).
  lia.
Qed.

Lemma below_four_never_rises_witness :
  number_generator 1 3 45 <= 3 /\
  0 <= number_generator 1 3 45 < 4 /\
  0 <= price_path 45 [1; 1]%Q 3 <= 3.
Proof.
  apply (below_four_never_rises 1 [1; 1]%Q 3 45).
  - unfold unit_sample. lra.
  - repeat constructor; unfold Qle; simpl; lia.
  - lia.
Defined.

(** The bound 4 is sharp: from 4 the price can rise. *)
Example four_can_rise : number_generator 1 4 45 = 5.
Proof. reflexivity. Qed.

(** ** Construction *)

(** [__init__] returns exactly when the number of ticks and the range of
    values are not zero and the width is a multiple of the number of
    ticks; the fields are then the following. *)
Lemma init_inr (n_max n_min n_ticks : Z) (t : Q) (shape : Z * Z)
    (show : bool) (sim : TradingSimulator) :
  __init__ n_max n_min n_ticks t shape show = inr sim <->
  n_ticks <> 0 /\ n_max <> n_min /\ snd shape mod n_ticks = 0 /\
  sim = {| n_max := n_max;
           n_min := n_min;
           n_ticks := n_ticks;
           t_update := t;
           image_shape := shape;
           show_expected_value_line := show;
           possible_range := 9 * (n_max - n_min);
           expected_value := 45;
           BAR_WIDTH := snd shape / n_ticks;
           BAR_HEIGHT_MULTIPLIER :=
             (inject_Z (fst shape) / inject_Z (9 * (n_max - n_min)))%Q |}.
Proof.
  unfold __init__, py_floordiv, py_truediv, py_assert.
  destruct (Z.eqb_spec n_ticks 0) as [Ht | Ht]; simpl.
  { split; [discriminate | tauto]. }
  destruct (Z.eqb_spec (9 * (n_max - n_min)) 0) as [Hr | Hr]; simpl.
  { split; [discriminate | intros (_ & H & _); lia]. }
  destruct (Z.eqb_spec (snd shape mod n_ticks) 0) as [Hm | Hm]; simpl.
  - split.
    + intros [= <-]. repeat split; try lia; try assumption.
    + intros (_ & _ & _ & ->). reflexivity.
  - split; [discriminate | tauto].
Qed.

Lemma init_fails (n_max n_min n_ticks : Z) (t : Q) (shape : Z * Z)
    (show : bool) :
  fails (__init__ n_max n_min n_ticks t shape show) <->
  n_ticks = 0 \/ n_max = n_min \/ snd shape mod n_ticks <> 0.
Proof.
  unfold fails.
  destruct (__init__ n_max n_min n_ticks t shape show) as [e | sim] eqn:E.
  - split; [| eauto]. intros _.
    destruct (Z.eq_dec n_ticks 0) as [| Ht]; [tauto |].
    destruct (Z.eq_dec n_max n_min) as [| Hr]; [tauto |].
    destruct (Z.eq_dec (snd shape mod n_ticks) 0) as [Hm |]; [| tauto].
    exfalso.
    pose proof (proj2 (init_inr n_max n_min n_ticks t shape show _)
                  (conj Ht (conj Hr (conj Hm eq_refl)))) as H.
    congruence.
  - apply init_inr in E. split.
    + intros [e He]. discriminate.
    + intros H. exfalso. tauto.
Qed.

Lemma enter_loop_returns (sim : TradingSimulator) (now : Q) :
  0 <= fst (image_shape sim) -> 0 <= snd (image_shape sim) ->
  exists img0,
    enter_loop sim now =
    inr {| trades := [];
           bought_position := None;
           next_val := expected_value sim;
           previous_step_time := now;
           img := img0;
           transaction_made_in_tick := false |} /\
    has_shape (Z.to_nat (fst (image_shape sim)))
              (Z.to_nat (snd (image_shape sim))) img0.
Proof.
  intros Hh Hw. unfold enter_loop, np_zeros.
  destruct (Z.ltb_spec (fst (image_shape sim)) 0); [lia |].
  destruct (Z.ltb_spec (snd (image_shape sim)) 0); [lia |].
  simpl. eexists. split; [reflexivity |].
  split; [apply length_replicate |].
  apply Forall_replicate. apply length_replicate.
Qed.

(** C2, as the code has it.  Construction fails exactly when [n_ticks] is
    zero, [n_max] equals [n_min], or the width is not a multiple of
    [n_ticks]; so for a number of ticks and a range of values that are not
    zero it fails exactly when the width is not a multiple of [n_ticks].
    When it succeeds and both dimensions of the image are not negative, the
    loop is entered. *)
Theorem construction_fails_iff (n_max n_min n_ticks : Z) (t : Q)
    (shape : Z * Z) (show : bool) :
  (fails (__init__ n_max n_min n_ticks t shape show) <->
   n_ticks = 0 \/ n_max = n_min \/ snd shape mod n_ticks <> 0) /\
  (n_ticks <> 0 -> n_max <> n_min ->
   (fails (__init__ n_max n_min n_ticks t shape show) <->
    snd shape mod n_ticks <> 0)) /\
  (n_ticks <> 0 -> n_max <> n_min -> snd shape mod n_ticks = 0 ->
   0 <= fst shape -> 0 <= snd shape ->
   exists sim, __init__ n_max n_min n_ticks t shape show = inr sim /\
               forall now, exists s, enter_loop sim now = inr s).
Proof.
  pose proof (init_fails n_max n_min n_ticks t shape show) as Hf.
  split; [exact Hf |]. split.
  - intros Ht Hr. rewrite Hf. tauto.
  - intros Ht Hr Hm Hh Hw. eexists. split.
    + apply init_inr. repeat split; try eassumption.
    + intros now.
      destruct (enter_loop_returns
                  {| n_max := n_max;
                     n_min := n_min;
                     n_ticks := n_ticks;
                     t_update := t;
                     image_shape := shape;
                     show_expected_value_line := show;
                     possible_range := 9 * (n_max - n_min);
                     expected_value := 45;
                     BAR_WIDTH := snd shape / n_ticks;
                     BAR_HEIGHT_MULTIPLIER :=
                       (inject_Z (fst shape)
                        / inject_Z (9 * (n_max - n_min)))%Q |}
                  now Hh Hw) as (img0 & He & _).
      eexists. exact He.
Qed.

Lemma construction_fails_iff_witness :
  (fails (__init__ 10 0 3 0.02 (250, 1000) true) <-> 1000 mod 3 <> 0) /\
  exists sim, __init__ 10 0 100 0.02 (250, 1000) true = inr sim /\
              forall now, exists s, enter_loop sim now = inr s.
Proof.
  destruct (construction_fails_iff 10 0 3 0.02 (250, 1000) true)
    as (_ & H3 & _).
  destruct (construction_fails_iff 10 0 100 0.02 (250, 1000) true)
    as (_ & _ & H100).
  split.
  - exact (H3 ltac:(lia) ltac:(lia)).
  - exact (H100 ltac:(lia) ltac:(lia) eq_refl ltac:(simpl; lia)
             ltac:(simpl; lia)).
Defined.

(** C2, as it is stated, fails: with [n_max = n_min] the width 1000 is a
    multiple of 100 ticks and construction raises all the same; and with a
    negative width construction succeeds and the loop is not entered. *)
Lemma construction_counterexample :
  ~ (fails (__init__ 5 5 100 0.02 (250, 1000) true) <-> 1000 mod 100 <> 0) /\
  ~ ((-1000) mod 100 = 0 ->
     exists sim s, __init__ 10 0 100 0.02 (250, -1000) true = inr sim /\
                   enter_loop sim 0 = inr s).
Proof.
  split.
  - intros [H _]. apply H; [| reflexivity]. eexists. reflexivity.
  - intros H. destruct (H eq_refl) as (sim & s & Hi & He).
    vm_compute in Hi. injection Hi as <-. discriminate He.
Qed.

(** ** The chart buffer *)

(** When the array primitives return, and the shape of what they
    return. *)
Lemma np_zeros_inr (h w : Z) (a : Image) :
  np_zeros h w = inr a <->
  0 <= h /\ 0 <= w /\
  a = replicate (Z.to_nat h) (replicate (Z.to_nat w) (0, 0, 0)).
Proof.
  unfold np_zeros.
  destruct (Z.ltb_spec h 0), (Z.ltb_spec w 0); simpl;
    (split; [try discriminate; intros [= <-]; auto with lia
            | intros (? & ? & ->); first [lia | reflexivity]]).
Qed.

Lemma has_shape_zeros (h w : nat) (c : Pixel) :
  has_shape h w (replicate h (replicate w c)).
Proof.
  split; [apply length_replicate |].
  apply Forall_replicate. apply length_replicate.
Qed.

Lemma has_shape_alter_paint (h w : nat) (c : Pixel) (k : nat) (a : Image) :
  has_shape h w a -> has_shape h w (alter (paint c) k a).
Proof.
  intros [Hl Hr]. split; [by rewrite length_alter |].
  apply Forall_alter; [exact Hr |].
  intros row _ Hw. unfold paint. by rewrite length_replicate.
Qed.

Lemma set_row_inr (i : Z) (c : Pixel) (a a' : Image) :
  set_row i c a = inr a' <->
  - Z.of_nat (length a) <= i < Z.of_nat (length a) /\
  a' = alter (paint c)
         (Z.to_nat (if i <? 0 then i + Z.of_nat (length a) else i)) a.
Proof.
  unfold set_row.
  destruct (Z.ltb_spec i (- Z.of_nat (length a))),
           (Z.leb_spec (Z.of_nat (length a)) i); simpl;
    (split; [try discriminate; intros [= <-]; auto with lia
            | intros (? & ->); first [lia | reflexivity]]).
Qed.

Lemma set_row_inl (i : Z) (c : Pixel) (a : Image) :
  ~ (- Z.of_nat (length a) <= i < Z.of_nat (length a)) ->
  set_row i c a = inl IndexError.
Proof.
  intros H. destruct (set_row i c a) as [[] | a'] eqn:E;
    try (apply set_row_inr in E; tauto);
    unfold set_row in E;
    destruct ((i <? - Z.of_nat (length a)) || (Z.of_nat (length a) <=? i));
    try discriminate; reflexivity.
Qed.

Lemma has_shape_set_row (h w : nat) (i : Z) (c : Pixel) (a a' : Image) :
  set_row i c a = inr a' -> has_shape h w a -> has_shape h w a'.
Proof.
  intros (_ & ->)%set_row_inr. apply has_shape_alter_paint.
Qed.

Lemma has_shape_set_rows (h w : nat) (lo hi : Z) (c : Pixel) (a : Image) :
  has_shape h w a -> has_shape h w (set_rows lo hi c a).
Proof.
  intros [Hl Hr]. unfold set_rows. split; [by rewrite length_imap |].
  apply Forall_lookup. intros k row Hk.
  apply list_lookup_imap_Some in Hk as (row0 & Hrow0 & ->).
  rewrite Forall_lookup in Hr. specialize (Hr _ _ Hrow0).
  destruct (_ && _); [| exact Hr].
  unfold paint. by rewrite length_replicate.
Qed.

Lemma np_zeros_ok (h w : Z) :
  0 <= h -> 0 <= w ->
  exists a, np_zeros h w = inr a /\ has_shape (Z.to_nat h) (Z.to_nat w) a.
Proof.
  intros. eexists. split; [apply np_zeros_inr; auto | apply has_shape_zeros].
Qed.

Lemma np_zeros_shape (h w : Z) (a : Image) :
  np_zeros h w = inr a ->
  0 <= h /\ 0 <= w /\ has_shape (Z.to_nat h) (Z.to_nat w) a.
Proof.
  intros (? & ? & ->)%np_zeros_inr. auto using has_shape_zeros.
Qed.

Lemma set_row_ok (i : Z) (c : Pixel) (a : Image) :
  - Z.of_nat (length a) <= i < Z.of_nat (length a) ->
  set_row i c a =
  inr (alter (paint c)
         (Z.to_nat (if i <? 0 then i + Z.of_nat (length a) else i)) a).
Proof. intros. apply set_row_inr. auto. Qed.

Lemma painted_row (h w : nat) (c : Pixel) (k : nat) (a : Image) :
  has_shape h w a -> (k < h)%nat ->
  alter (paint c) k a !! k = Some (replicate w c).
Proof.
  intros [Hl Hr] Hk.
  destruct (lookup_lt_is_Some_2 a k) as [row Hrow]; [lia |].
  rewrite list_lookup_alter_eq, Hrow. simpl. unfold paint.
  rewrite Forall_lookup in Hr. by rewrite (Hr _ _ Hrow).
Qed.

(** The three stages of the column before the last write. *)
Lemma render_column_stages (sim : TradingSimulator) (v : Z) (b s : bool) :
  0 <= fst (image_shape sim) -> 0 <= BAR_WIDTH sim ->
  (show_expected_value_line sim = true -> in_rows sim (expected_row sim)) ->
  exists c,
    has_shape (Z.to_nat (fst (image_shape sim))) (Z.to_nat (BAR_WIDTH sim)) c /\
    render_column sim v b s = set_row (value_row sim v) (255, 255, 255) c.
Proof.
  intros Hh Hw He. unfold render_column.
  destruct (np_zeros_ok _ _ Hh Hw) as (c0 & -> & S0). simpl bind.
  set (H := Z.to_nat (fst (image_shape sim))) in *.
  set (W := Z.to_nat (BAR_WIDTH sim)) in *.
  destruct (show_expected_value_line sim).
  - rewrite set_row_ok.
    2:{ destruct S0 as [-> _]. specialize (He eq_refl).
        unfold in_rows in He. subst H. lia. }
    simpl bind. eexists. split; [| reflexivity].
    destruct (b || s); [destruct (v >? expected_value sim) |];
      repeat first [apply has_shape_set_rows | apply has_shape_alter_paint];
      exact S0.
  - simpl bind. eexists. split; [| reflexivity].
    destruct (b || s); [destruct (v >? expected_value sim) |];
      repeat first [apply has_shape_set_rows | apply has_shape_alter_paint];
      exact S0.
Qed.

(** The column is drawn when the two marker rows lie in it; it has the
    shape of one bar and the row of the current value is white. *)
Lemma render_column_returns (sim : TradingSimulator) (v : Z) (b s : bool) :
  0 <= fst (image_shape sim) -> 0 <= BAR_WIDTH sim ->
  (show_expected_value_line sim = true -> in_rows sim (expected_row sim)) ->
  in_rows sim (value_row sim v) ->
  exists col,
    render_column sim v b s = inr col /\
    has_shape (Z.to_nat (fst (image_shape sim))) (Z.to_nat (BAR_WIDTH sim)) col /\
    col !! Z.to_nat (if value_row sim v <? 0
                     then value_row sim v + fst (image_shape sim)
                     else value_row sim v)
    = Some (replicate (Z.to_nat (BAR_WIDTH sim)) (255, 255, 255)).
Proof.
  intros Hh Hw He Hv.
  destruct (render_column_stages sim v b s Hh Hw He) as (c & Sc & ->).
  pose proof Sc as [Hl _]. unfold in_rows in Hv.
  rewrite set_row_ok by lia. eexists. split; [reflexivity |].
  split; [by apply has_shape_alter_paint |].
  rewrite Hl, Z2Nat.id by lia.
  apply (painted_row _ _ _ _ _ Sc).
  destruct (Z.ltb_spec (value_row sim v) 0); lia.
Qed.

(** With the row of the current value outside of the column, the last
    write raises. *)
Lemma render_column_raises (sim : TradingSimulator) (v : Z) (b s : bool) :
  0 <= fst (image_shape sim) -> 0 <= BAR_WIDTH sim ->
  (show_expected_value_line sim = true -> in_rows sim (expected_row sim)) ->
  ~ in_rows sim (value_row sim v) ->
  render_column sim v b s = inl IndexError.
Proof.
  intros Hh Hw He Hv.
  destruct (render_column_stages sim v b s Hh Hw He) as (c & [Hl _] & ->).
  apply set_row_inl. unfold in_rows in Hv. lia.
Qed.

(** A column that is drawn has the shape of one bar, and the row of the
    current value lies in it. *)
Lemma render_column_shape (sim : TradingSimulator) (v : Z) (b s : bool)
    (col : Image) :
  render_column sim v b s = inr col ->
  0 <= fst (image_shape sim) /\ 0 <= BAR_WIDTH sim /\
  in_rows sim (value_row sim v) /\
  has_shape (Z.to_nat (fst (image_shape sim))) (Z.to_nat (BAR_WIDTH sim)) col.
Proof.
  unfold render_column. intros E.
  destruct (np_zeros _ _) as [e | c0] eqn:E0; [discriminate |].
  apply np_zeros_shape in E0 as (Hh & Hw & S0). simpl bind in E.
  set (H := Z.to_nat (fst (image_shape sim))) in *.
  set (W := Z.to_nat (BAR_WIDTH sim)) in *.
  match type of E with
  | bind ?m _ = _ => destruct m as [e | c1] eqn:E1; [discriminate |]
  end.
  simpl bind in E.
  assert (S1 : has_shape H W c1).
  { destruct (show_expected_value_line sim).
    - eapply has_shape_set_row; eauto.
    - injection E1 as <-. exact S0. }
  match type of E with
  | set_row _ _ ?c = _ => assert (S2 : has_shape H W c)
  end.
  { destruct (b || s); [destruct (v >? expected_value sim) |];
      repeat first [apply has_shape_set_rows]; exact S1. }
  pose proof E as (Hv & _)%set_row_inr.
  destruct S2 as [Hl2 Hr2]. rewrite Hl2 in Hv. subst H.
  repeat split; try assumption; try (unfold in_rows; lia).
  - eapply has_shape_set_row in E; [apply E | split; eauto].
  - eapply has_shape_set_row in E; [apply E | split; eauto].
Qed.

(** The scroll step: the first [BAR_WIDTH] pixels of every row go, the
    row of the new column comes at the end. *)
Lemma np_delete_columns_drop (k : Z) (img : Image) :
  0 <= k -> np_delete_columns k img = drop (Z.to_nat k) <$> img.
Proof.
  intros Hk. unfold np_delete_columns. apply list_fmap_ext. intros _ row _.
  unfold slice_index. destruct (Z.ltb_spec k 0); [lia |].
  destruct (Z.le_ge_cases k (Z.of_nat (length row))).
  - by rewrite Z.min_l.
  - rewrite Z.min_r, Nat2Z.id by lia.
    rewrite !drop_ge; [done | lia | lia].
Qed.

Lemma append_and_scroll_spec (sim : TradingSimulator) (img col : Image)
    (h w : nat) :
  0 <= BAR_WIDTH sim -> (Z.to_nat (BAR_WIDTH sim) <= w)%nat ->
  has_shape h w img -> has_shape h (Z.to_nat (BAR_WIDTH sim)) col ->
  exists img',
    append_and_scroll sim img col = inr img' /\
    has_shape h w img' /\
    (forall i j, (j < w - Z.to_nat (BAR_WIDTH sim))%nat ->
       pixel img' i j = pixel img i (j + Z.to_nat (BAR_WIDTH sim))) /\
    (forall i j, (w - Z.to_nat (BAR_WIDTH sim) <= j)%nat ->
       pixel img' i j = pixel col i (j - (w - Z.to_nat (BAR_WIDTH sim)))).
Proof.
  intros Hb Hbw [Hl Hr] [Hcl Hcr]. unfold append_and_scroll.
  rewrite np_delete_columns_drop by exact Hb.
  set (b := Z.to_nat (BAR_WIDTH sim)) in *.
  unfold np_concatenate_columns. rewrite length_fmap, Hl, Hcl, Nat.eqb_refl.
  eexists. split; [reflexivity |].
  rewrite Forall_lookup in Hr. rewrite Forall_lookup in Hcr.
  assert (Hrow : forall i row',
             zip_with app (drop b <$> img) col !! i = Some row' ->
             exists row c, img !! i = Some row /\ col !! i = Some c /\
                           length row = w /\ length c = b /\
                           row' = drop b row ++ c).
  { intros i row' (r0 & c & -> & Hr0 & Hc)%lookup_zip_with_Some.
    rewrite list_lookup_fmap in Hr0.
    destruct (img !! i) as [row |] eqn:Hi; [| discriminate].
    injection Hr0 as <-. exists row, c. eauto 10. }
  assert (Hnone : forall i,
             zip_with app (drop b <$> img) col !! i = None ->
             img !! i = None /\ col !! i = None).
  { intros i Hn. apply lookup_ge_None in Hn.
    rewrite length_zip_with, length_fmap in Hn.
    split; apply lookup_ge_None; lia. }
  split; [split |].
  - rewrite length_zip_with, length_fmap. lia.
  - apply Forall_lookup. intros i row' Hi.
    destruct (Hrow _ _ Hi) as (row & c & _ & _ & Hw & Hc & ->).
    rewrite length_app, length_drop. lia.
  - split; intros i j Hj; unfold pixel;
      destruct (zip_with app (drop b <$> img) col !! i) as [row' |] eqn:Hi.
    + destruct (Hrow _ _ Hi) as (row & c & -> & _ & Hw & Hc & ->). simpl.
      rewrite lookup_app_l by (rewrite length_drop; lia).
      rewrite lookup_drop. f_equal. lia.
    + destruct (Hnone _ Hi) as [-> _]. reflexivity.
    + destruct (Hrow _ _ Hi) as (row & c & _ & -> & Hw & Hc & ->). simpl.
      rewrite lookup_app_r by (rewrite length_drop; lia).
      rewrite length_drop. f_equal. lia.
    + destruct (Hnone _ Hi) as [_ ->]. reflexivity.
Qed.

(** [update] is the renderer followed by the scroll step. *)
Lemma update_rendered (sim : TradingSimulator) (img col : Image)
    (v : Z) (b s : bool) :
  render_column sim v b s = inr col ->
  update sim img v b s = append_and_scroll sim img col.
Proof. intros H. unfold update. rewrite H. reflexivity. Qed.

Lemma update_not_rendered (sim : TradingSimulator) (img : Image)
    (v : Z) (b s : bool) (e : Error) :
  render_column sim v b s = inl e -> update sim img v b s = inl e.
Proof. intros H. unfold update. rewrite H. reflexivity. Qed.

Lemma update_returns (sim : TradingSimulator) (img : Image) (w : nat)
    (v : Z) (b s : bool) :
  0 <= fst (image_shape sim) -> 0 <= BAR_WIDTH sim ->
  (Z.to_nat (BAR_WIDTH sim) <= w)%nat ->
  (show_expected_value_line sim = true -> in_rows sim (expected_row sim)) ->
  in_rows sim (value_row sim v) ->
  has_shape (Z.to_nat (fst (image_shape sim))) w img ->
  exists img',
    update sim img v b s = inr img' /\
    has_shape (Z.to_nat (fst (image_shape sim))) w img'.
Proof.
  intros Hh Hb Hw He Hv Hs.
  destruct (render_column_returns sim v b s Hh Hb He Hv) as (col & Hc & Sc & _).
  rewrite (update_rendered _ _ _ _ _ _ Hc).
  destruct (append_and_scroll_spec sim img col _ w Hb Hw Hs Sc)
    as (img' & -> & S' & _).
  eauto.
Qed.

Lemma scroll_all_shape (sim : TradingSimulator) (cols : list Image)
    (img : Image) (h w : nat) :
  0 <= BAR_WIDTH sim -> (Z.to_nat (BAR_WIDTH sim) <= w)%nat ->
  has_shape h w img ->
  Forall (has_shape h (Z.to_nat (BAR_WIDTH sim))) cols ->
  exists img', scroll_all sim cols img = inr img' /\ has_shape h w img'.
Proof.
  intros Hb Hw Hs Hc. revert img Hs.
  induction Hc as [| col cols Hcol _ IH]; intros img Hs.
  - exists img. split; [reflexivity | exact Hs].
  - simpl.
    destruct (append_and_scroll_spec sim img col h w Hb Hw Hs Hcol)
      as (img1 & -> & S1 & _).
    simpl bind. apply IH. exact S1.
Qed.


(** The width that [__init__] accepts is a whole number of bars. *)
Lemma constructed_width (a b n : Z) (t : Q) (shape : Z * Z) (show : bool)
    (sim : TradingSimulator) :
  __init__ a b n t shape show = inr sim ->
  snd (image_shape sim) = n_ticks sim * BAR_WIDTH sim /\ n_ticks sim <> 0.
Proof.
  intros (Hn & _ & Hm & ->)%init_inr. simpl. split; [| exact Hn].
  rewrite (Z.div_mod (snd shape) n) at 1 by exact Hn. lia.
Qed.

Lemma bar_fits (sim : TradingSimulator) (w : nat) :
  Z.of_nat w = n_ticks sim * BAR_WIDTH sim -> n_ticks sim <> 0 ->
  0 <= BAR_WIDTH sim -> (Z.to_nat (BAR_WIDTH sim) <= w)%nat.
Proof. intros Hw Hn Hb. nia. Qed.

(** [update] returns the buffer scrolled by one bar whenever the two
    marker rows lie in the column. *)
Lemma update_scrolls_one_bar (sim : TradingSimulator) (img : Image) (w : nat)
    (v : Z) (bought sold : bool) :
  0 <= BAR_WIDTH sim -> (Z.to_nat (BAR_WIDTH sim) <= w)%nat ->
  has_shape (Z.to_nat (fst (image_shape sim))) w img ->
  (show_expected_value_line sim = true -> in_rows sim (expected_row sim)) ->
  in_rows sim (value_row sim v) ->
  exists col img',
    render_column sim v bought sold = inr col /\
    update sim img v bought sold = inr img' /\
    has_shape (Z.to_nat (fst (image_shape sim))) w img' /\
    (forall i j, (j < w - Z.to_nat (BAR_WIDTH sim))%nat ->
       pixel img' i j = pixel img i (j + Z.to_nat (BAR_WIDTH sim))) /\
    (forall i j, (w - Z.to_nat (BAR_WIDTH sim) <= j)%nat ->
       pixel img' i j = pixel col i (j - (w - Z.to_nat (BAR_WIDTH sim)))).
Proof.
  intros Hb Hw Hs He Hv.
  assert (Hh : 0 <= fst (image_shape sim)) by (unfold in_rows in Hv; lia).
  destruct (render_column_returns sim v bought sold Hh Hb He Hv)
    as (col & Hc & Sc & _).
  exists col. rewrite (update_rendered _ _ _ _ _ _ Hc).
  destruct (append_and_scroll_spec sim img col _ w Hb Hw Hs Sc)
    as (img' & Hu & H').
  exists img'. auto.
Qed.

Lemma update_all_shape (sim : TradingSimulator)
    (calls : list (Z * bool * bool)) (img : Image) (w : nat) :
  0 <= BAR_WIDTH sim -> (Z.to_nat (BAR_WIDTH sim) <= w)%nat ->
  (show_expected_value_line sim = true -> in_rows sim (expected_row sim)) ->
  has_shape (Z.to_nat (fst (image_shape sim))) w img ->
  Forall (fun c => in_rows sim (value_row sim c.1.1)) calls ->
  exists img',
    update_all sim calls img = inr img' /\
    has_shape (Z.to_nat (fst (image_shape sim))) w img'.
Proof.
  intros Hb Hw He Hs Hc. revert img Hs.
  induction Hc as [| [[v bought] sold] calls Hv _ IH]; intros img Hs.
  - exists img. split; [reflexivity | exact Hs].
  - simpl in Hv. simpl update_all.
    destruct (update_scrolls_one_bar sim img w v bought sold Hb Hw Hs He Hv)
      as (col & img1 & _ & -> & S1 & _).
    simpl bind. apply IH. exact S1.
Qed.

(** C5, as the code has it.  On a buffer of the constructed shape, the
    height of the image and [n_ticks] bars of [BAR_WIDTH] pixel-columns, the
    scroll step of [update] returns a buffer of the same shape for every
    column of one bar, and so does any number of consecutive scroll steps
    (1000 of them when [cols] has 1000 columns); and any number of
    consecutive calls of [update] return a buffer of that shape when the
    marker rows of every call lie in the column. *)
Theorem buffer_width_constant (a b n : Z) (t : Q) (shape : Z * Z)
    (show : bool) (sim : TradingSimulator) (img : Image)
    (cols : list Image) (calls : list (Z * bool * bool)) (w : nat) :
  __init__ a b n t shape show = inr sim ->
  Z.of_nat w = n_ticks sim * BAR_WIDTH sim ->
  0 <= BAR_WIDTH sim ->
  has_shape (Z.to_nat (fst (image_shape sim))) w img ->
  Forall (has_shape (Z.to_nat (fst (image_shape sim)))
            (Z.to_nat (BAR_WIDTH sim))) cols ->
  (show_expected_value_line sim = true -> in_rows sim (expected_row sim)) ->
  Forall (fun c => in_rows sim (value_row sim c.1.1)) calls ->
  (exists img',
     scroll_all sim cols img = inr img' /\
     has_shape (Z.to_nat (fst (image_shape sim))) w img') /\
  (exists img',
     update_all sim calls img = inr img' /\
     has_shape (Z.to_nat (fst (image_shape sim))) w img').
Proof.
  intros Hi Hw Hb Hs Hc He Hv.
  destruct (constructed_width _ _ _ _ _ _ _ Hi) as [_ Hn].
  pose proof (bar_fits sim w Hw Hn Hb) as Hfit.
  split.
  - by apply scroll_all_shape.
  - by apply update_all_shape.
Qed.

Lemma buffer_width_constant_witness :
  (exists img',
     scroll_all small_fields [black 9 2; black 9 2] (black 9 4) = inr img' /\
     has_shape 9 4 img') /\
  exists img',
    update_all small_fields [(50, true, false); (44, false, false)]
      (black 9 4) = inr img' /\
    has_shape 9 4 img'.
Proof.
  apply (buffer_width_constant 10 0 2 0.02 (9, 4) true small_fields
           (black 9 4) [black 9 2; black 9 2]
           [(50, true, false); (44, false, false)] 4).
  - reflexivity.
  - reflexivity.
  - simpl. lia.
  - apply (has_shape_zeros 9 4).
  - repeat constructor; apply (has_shape_zeros 9 2).
  - intros _. change (-9 <= 4 < 9). lia.
  - constructor; [change (-9 <= 5 < 9); lia |].
    constructor; [change (-9 <= 4 < 9); lia |].
    constructor.
Defined.

(** C10, as the code has it.  For a buffer of the height of the image and
    of [w] pixel-columns, at least one bar wide, and every value and marker
    whose marker rows lie in the column, [update] returns a buffer of the
    same height and width (three channels per pixel) whose pixel-column
    [j], for [j] below [w - BAR_WIDTH], is pixel-column [j + BAR_WIDTH] of
    the input, and whose last [BAR_WIDTH] pixel-columns are the new
    column. *)
Theorem update_frame (sim : TradingSimulator) (img : Image) (w : nat)
    (v : Z) (bought sold : bool) :
  0 <= BAR_WIDTH sim -> (Z.to_nat (BAR_WIDTH sim) <= w)%nat ->
  has_shape (Z.to_nat (fst (image_shape sim))) w img ->
  (show_expected_value_line sim = true -> in_rows sim (expected_row sim)) ->
  in_rows sim (value_row sim v) ->
  exists col img',
    render_column sim v bought sold = inr col /\
    update sim img v bought sold = inr img' /\
    has_shape (Z.to_nat (fst (image_shape sim))) w img' /\
    (forall i j, (j < w - Z.to_nat (BAR_WIDTH sim))%nat ->
       pixel img' i j = pixel img i (j + Z.to_nat (BAR_WIDTH sim))) /\
    (forall i j, (w - Z.to_nat (BAR_WIDTH sim) <= j)%nat ->
       pixel img' i j = pixel col i (j - (w - Z.to_nat (BAR_WIDTH sim)))).
Proof. exact (update_scrolls_one_bar sim img w v bought sold). Qed.

Lemma update_frame_witness :
  exists col img',
    render_column small_fields 50 true false = inr col /\
    update small_fields (black 9 4) 50 true false = inr img' /\
    has_shape 9 4 img' /\
    (forall i j, (j < 2)%nat -> pixel img' i j = pixel (black 9 4) i (j + 2)) /\
    (forall i j, (2 <= j)%nat -> pixel img' i j = pixel col i (j - 2)).
Proof.
  apply (update_frame small_fields (black 9 4) 4 50 true false).
  - simpl. lia.
  - simpl. lia.
  - apply (has_shape_zeros 9 4).
  - intros _. change (-9 <= 4 < 9). lia.
  - change (-9 <= 5 < 9). lia.
Defined.

(** ** The default simulator *)

Lemma default_simulator_fields : default_simulator = inr default_fields.
Proof. reflexivity. Qed.

(** With the default scale of 250 rows for 90 values, the row of the
    current value is [250 * v / 90]. *)
Lemma default_value_row (v : Z) :
  0 <= v -> value_row default_fields v = 250 * v / 90.
Proof.
  intros Hv. unfold value_row, py_int. simpl.
  apply Z.quot_div_nonneg; lia.
Qed.

Lemma default_value_in_rows (v : Z) :
  0 <= v < 90 -> in_rows default_fields (value_row default_fields v).
Proof.
  intros Hv. rewrite default_value_row by lia. unfold in_rows. simpl.
  split.
  - assert (0 <= 250 * v / 90) by (apply Z.div_pos; lia). lia.
  - apply Z.div_lt_upper_bound; lia.
Qed.

Lemma default_value_not_in_rows (v : Z) :
  90 <= v -> ~ in_rows default_fields (value_row default_fields v).
Proof.
  intros Hv. rewrite default_value_row by lia. unfold in_rows. simpl.
  assert (250 <= 250 * v / 90) by (apply Z.div_le_lower_bound; lia). lia.
Qed.

Lemma default_expected_in_rows :
  in_rows default_fields (expected_row default_fields).
Proof.
  unfold in_rows. change (expected_row default_fields) with 125.
  simpl. lia.
Qed.

(** [update] on the default simulator returns for every value from 0 to
    89 ... *)
Lemma default_update_returns (img : Image) (v : Z) (b s : bool) :
  0 <= v < 90 -> has_shape 250 1000 img ->
  exists img',
    update default_fields img v b s = inr img' /\ has_shape 250 1000 img'.
Proof.
  intros Hv Hs.
  apply (update_returns default_fields img 1000 v b s).
  - simpl. lia.
  - simpl. lia.
  - simpl. lia.
  - intros _. exact default_expected_in_rows.
  - by apply default_value_in_rows.
  - exact Hs.
Qed.

(** ... and raises for every value from 90 on. *)
Lemma default_update_raises (img : Image) (v : Z) (b s : bool) :
  90 <= v -> update default_fields img v b s = inl IndexError.
Proof.
  intros Hv. apply update_not_rendered. apply render_column_raises.
  - simpl. lia.
  - simpl. lia.
  - intros _. exact default_expected_in_rows.
  - by apply default_value_not_in_rows.
Qed.

(** C5, as it is stated, fails.  A buffer of the constructed width whose
    height is not the height of the image cannot take the new column:
    [np.concatenate] raises.  And on the default simulator, with a buffer
    of the constructed shape, [update] at the value 90 raises while it
    draws the column.  Neither call returns a buffer. *)
Lemma buffer_width_counterexample :
  (Z.of_nat 4 = n_ticks small_fields * BAR_WIDTH small_fields /\
   Forall (fun row => length row = 4%nat) (black 5 4) /\
   update small_fields (black 5 4) 50 false false = inl ValueError) /\
  (Z.of_nat 1000 = n_ticks default_fields * BAR_WIDTH default_fields /\
   has_shape 250 1000 (black 250 1000) /\
   update default_fields (black 250 1000) 90 false false = inl IndexError).
Proof.
  split.
  - split; [reflexivity |]. split; [| reflexivity].
    repeat constructor.
  - split; [reflexivity |]. split; [apply has_shape_zeros |].
    apply default_update_raises. lia.
Qed.

(** C10, as it is stated, fails.  For a buffer of height 5 the small
    simulator, whose image has 9 rows, draws a column of 9 rows and
    [np.concatenate] raises.  And on the default simulator [update] raises
    at the value 96, the price after seven of the largest draws.  Neither
    call returns a buffer. *)
Lemma update_frame_counterexample :
  (has_shape 5 4 (black 5 4) /\
   (Z.to_nat (BAR_WIDTH small_fields) <= 4)%nat /\
   ~ exists img',
       update small_fields (black 5 4) 50 true false = inr img') /\
  (has_shape 250 1000 (black 250 1000) /\
   (Z.to_nat (BAR_WIDTH default_fields) <= 1000)%nat /\
   price_path 45 [1; 1; 1; 1; 1; 1; 1]%Q 45 = 96 /\
   ~ exists img',
       update default_fields (black 250 1000) 96 true false = inr img').
Proof.
  split.
  - split; [apply has_shape_zeros |]. split; [simpl; lia |].
    intros [img' H]. discriminate H.
  - split; [apply has_shape_zeros |]. split; [simpl; lia |].
    split; [reflexivity |].
    rewrite default_update_raises by lia. intros [img' H]. discriminate H.
Qed.

(** C7, on the code.  On the default simulator the price 90 is
    reached from the start value 45 by seven draws; its row is 250, one
    past the last row of the column; [update] returns for the values from
    0 to 89 and raises [IndexError] for every value from 90 on, whatever
    the buffer and the marker; and the session in which the price climbs
    to 90 ends with that exception. *)
Theorem value_row_out_of_bounds :
  default_simulator = inr default_fields /\
  price_path 45 (sample <$> climbing_session) 45 = 90 /\
  Forall unit_sample (sample <$> climbing_session) /\
  value_row default_fields 90 = 250 /\
  (forall img v bought sold,
     0 <= v < 90 -> has_shape 250 1000 img ->
     exists img', update default_fields img v bought sold = inr img') /\
  (forall img v bought sold,
     90 <= v -> update default_fields img v bought sold = inl IndexError) /\
  __call__ default_fields 0 climbing_session = inl IndexError.
Proof.
  split; [reflexivity |]. split; [reflexivity |].
  split; [repeat constructor; unfold Qle; simpl; lia |].
  split; [reflexivity |].
  split.
  { intros img v bought sold Hv Hs.
    destruct (default_update_returns img v bought sold Hv Hs) as (img' & H & _).
    eauto. }
  split; [intros; by apply default_update_raises |].
  vm_compute. reflexivity.
Qed.

Lemma value_row_out_of_bounds_witness :
  (exists img',
     update default_fields (black 250 1000) 89 false false = inr img') /\
  update default_fields (black 250 1000) 90 false false = inl IndexError.
Proof.
  destruct value_row_out_of_bounds as (_ & _ & _ & _ & Hin & Hout & _).
  split.
  - apply Hin; [lia | apply has_shape_zeros].
  - apply Hout. lia.
Defined.

(** ** The interactive loop *)

(** The branches of the key dispatch, one lemma per branch that the
    statements below use. *)
Lemma dispatch_ignored (sim : TradingSimulator) (k : Z) (s : State) :
  transaction_made_in_tick s = true -> buy_or_sell k ->
  dispatch sim k s = ret (Continue s []).
Proof.
  intros Hf [-> | ->]; unfold dispatch; rewrite Hf; simpl;
    rewrite ?andb_false_r; reflexivity.
Qed.

Lemma dispatch_no_position (sim : TradingSimulator) (s : State) :
  bought_position s = None -> transaction_made_in_tick s = false ->
  dispatch sim (ord "v") s = ret (Continue s [NoBoughtShares]).
Proof.
  intros Hp Hf. unfold dispatch. rewrite Hp, Hf. reflexivity.
Qed.

Lemma dispatch_status (sim : TradingSimulator) (s : State) :
  dispatch sim (ord "s") s =
  ret (Continue s [PositionStatus (position_status (bought_position s))]).
Proof. reflexivity. Qed.

Lemma dispatch_buy (sim : TradingSimulator) (s : State) (img' : Image) :
  transaction_made_in_tick s = false ->
  update sim (img s) (next_val s) true false = inr img' ->
  dispatch sim (ord "c") s =
  ret (Continue
         {| trades := trades s;
            bought_position :=
              Some (match bought_position s with
                    | None => [next_val s]
                    | Some entries => entries ++ [next_val s]
                    end);
            next_val := next_val s;
            previous_step_time := previous_step_time s;
            img := img';
            transaction_made_in_tick := true |}
         [BoughtAt (next_val s)]).
Proof.
  intros Hf Hu. unfold dispatch. rewrite Hf, Hu. reflexivity.
Qed.

Lemma dispatch_sell (sim : TradingSimulator) (s : State) (entries : list Z)
    (img' : Image) :
  transaction_made_in_tick s = false ->
  bought_position s = Some entries ->
  update sim (img s) (next_val s) false true = inr img' ->
  dispatch sim (ord "v") s =
  ret (Continue
         {| trades := trades s ++ [{| buy := np_mean entries;
                                      sell := next_val s |}];
            bought_position := None;
            next_val := next_val s;
            previous_step_time := previous_step_time s;
            img := img';
            transaction_made_in_tick := true |}
         [SoldAt (next_val s);
          Profit (Qred (np_mean entries - inject_Z (next_val s)))
                 (np_mean entries) (next_val s)]).
Proof.
  intros Hf Hp Hu. unfold dispatch. rewrite Hf, Hp, Hu. reflexivity.
Qed.

(** The tick gate, closed and open. *)
Lemma tick_gate_closed (sim : TradingSimulator) (t : Q) (s : State) :
  ~ gate_fires sim t s -> tick_gate sim t s = ret (s, []).
Proof.
  unfold gate_fires, tick_gate. intros H.
  destruct (Qlt_le_dec _ _); [contradiction | reflexivity].
Qed.

Lemma tick_gate_after_transaction (sim : TradingSimulator) (t : Q) (s : State) :
  gate_fires sim t s -> transaction_made_in_tick s = true ->
  tick_gate sim t s =
  ret ({| trades := trades s;
          bought_position := bought_position s;
          next_val := next_val s;
          previous_step_time := t;
          img := img s;
          transaction_made_in_tick := false |},
       [Step (next_val s); Elapsed (Qred (t - previous_step_time s))]).
Proof.
  unfold gate_fires, tick_gate. intros H Hf.
  destruct (Qlt_le_dec _ _) as [_ | Hle]; [| exfalso; lra].
  rewrite Hf. reflexivity.
Qed.

(** Passes of the loop in a state whose transaction flag is set. *)
Lemma iteration_ignored (sim : TradingSimulator) (i : Input) (s : State) :
  transaction_made_in_tick s = true -> buy_or_sell (key i) ->
  ~ gate_fires sim (clock i) s ->
  iteration sim i s =
  ret (Continue
         (set_next_val
            (PriceProcess.number_generator (sample i) (next_val s)
               (expected_value sim)) s) []).
Proof.
  intros Hf Hk Hg. unfold iteration, body.
  rewrite dispatch_ignored by assumption. simpl bind.
  rewrite tick_gate_closed by exact Hg. reflexivity.
Qed.

Lemma iteration_resets_flag (sim : TradingSimulator) (i : Input) (s : State) :
  transaction_made_in_tick s = true -> buy_or_sell (key i) ->
  gate_fires sim (clock i) s ->
  exists s' out,
    iteration sim i s = ret (Continue s' out) /\
    same_ledger_and_chart s s' /\
    transaction_made_in_tick s' = false.
Proof.
  intros Hf Hk Hg. unfold iteration, body.
  rewrite dispatch_ignored by assumption. simpl bind.
  rewrite tick_gate_after_transaction by assumption. simpl.
  eexists _, _. split; [reflexivity |]. unfold same_ledger_and_chart. auto.
Qed.

Lemma run_ignored (sim : TradingSimulator) (script : list Input) (s : State) :
  transaction_made_in_tick s = true ->
  Forall (fun i => buy_or_sell (key i) /\ ~ gate_fires sim (clock i) s) script ->
  exists s',
    run sim script s = ret (Continue s' []) /\
    same_ledger_and_chart s s' /\
    transaction_made_in_tick s' = true /\
    previous_step_time s' = previous_step_time s.
Proof.
  intros Hf Hs. revert s Hf Hs.
  induction script as [| i script IH]; intros s Hf Hs.
  - exists s. unfold same_ledger_and_chart. auto.
  - apply Forall_cons in Hs as [[Hk Hg] Hs]. simpl.
    rewrite iteration_ignored by assumption. simpl bind.
    destruct (IH (set_next_val
                    (PriceProcess.number_generator (sample i) (next_val s)
                       (expected_value sim)) s)) as (s' & -> & Hsame & Hf' & Ht).
    + exact Hf.
    + exact Hs.
    + exists s'. split; [reflexivity |]. auto.
Qed.

(** The flag is set by the two branches that commit a transaction. *)
Lemma transaction_sets_flag (sim : TradingSimulator) (k : Z)
    (s s' : State) (out : list Output) :
  transaction_made_in_tick s = false -> buy_or_sell k ->
  (k = ord "v" -> bought_position s <> None) ->
  dispatch sim k s = ret (Continue s' out) ->
  transaction_made_in_tick s' = true.
Proof.
  intros Hf [-> | ->] Hp; unfold dispatch; rewrite Hf; simpl.
  - destruct (update sim (img s) (next_val s) true false); simpl;
      [discriminate |]. by intros [= <- _].
  - destruct (bought_position s) as [entries |] eqn:E;
      [| by destruct Hp]. simpl.
    destruct (update sim (img s) (next_val s) false true); simpl;
      [discriminate |]. by intros [= <- _].
Qed.

(** C3, as the code has it.  In a state with no open position and with
    the transaction flag clear, the sell key prints "No bought shares." and
    leaves the state as it is: the position stays empty and the trade
    history is the same; the status key then reports 0, the value printed
    for an empty position. *)
Theorem sell_without_position (sim : TradingSimulator) (s : State) :
  bought_position s = None -> transaction_made_in_tick s = false ->
  dispatch sim (ord "v") s = ret (Continue s [NoBoughtShares]) /\
  dispatch sim (ord "s") s = ret (Continue s [PositionStatus 0]).
Proof.
  intros Hp Hf. split.
  - by apply dispatch_no_position.
  - rewrite dispatch_status, Hp. reflexivity.
Qed.

Lemma sell_without_position_witness :
  dispatch small_fields (ord "v") flat_state
  = ret (Continue flat_state [NoBoughtShares]) /\
  dispatch small_fields (ord "s") flat_state
  = ret (Continue flat_state [PositionStatus 0]).
Proof.
  apply (sell_without_position small_fields flat_state); reflexivity.
Defined.

(** C3, as it is stated, fails: in a state with no open position whose
    transaction flag is set, as it is after a sale in the same tick, the
    sell key reports nothing. *)
Lemma sell_without_position_counterexample :
  bought_position traded_state = None /\
  dispatch small_fields (ord "v") traded_state
  = ret (Continue traded_state []) /\
  dispatch small_fields (ord "v") traded_state
  <> ret (Continue traded_state [NoBoughtShares]).
Proof.
  split; [reflexivity |]. split; [reflexivity |]. discriminate.
Qed.

(** C4.  On the default simulator, from the state in which the loop is
    entered (no open position, no trade): buying at 5 and at 7, one tick
    apart, leaves the position [5; 7] with mean 6; selling at 10 in the
    next tick prints the profit [6 - 10 = -4], appends the one trade
    record with [buy = 6] and [sell = 10], and empties the position; the
    status key then reports 0.  The whole session [trading_session] of
    [__call__], in which the generator brings the price to 5, 7 and 10,
    prints the same and ends with that one trade and no position. *)
Theorem buy_buy_sell :
  (exists s0 s1 s2 s3 : State,
    enter_loop default_fields 0 = inr s0 /\
    body default_fields (ord "c") 1 (set_next_val 5 s0)
    = ret (Continue s1 [BoughtAt 5; Step 5; Elapsed 1]) /\
    body default_fields (ord "c") 2 (set_next_val 7 s1)
    = ret (Continue s2 [BoughtAt 7; Step 7; Elapsed 1]) /\
    bought_position s2 = Some [5; 7] /\
    position_status (bought_position s2) = 6%Q /\
    trades s2 = [] /\
    body default_fields (ord "v") 3 (set_next_val 10 s2)
    = ret (Continue s3 [SoldAt 10; Profit (-4) 6 10; Step 10; Elapsed 1]) /\
    trades s3 = [{| buy := 6; sell := 10 |}] /\
    bought_position s3 = None /\
    dispatch default_fields (ord "s") s3
    = ret (Continue s3 [PositionStatus 0])) /\
  match __call__ default_fields 0 trading_session with
  | inr (Continue s out) =>
      trades s = [{| buy := 6; sell := 10 |}] /\
      bought_position s = None /\
      out = [BoughtAt 5; Step 5; Elapsed 1;
             BoughtAt 7; Step 7; Elapsed 1;
             SoldAt 10; Profit (-4) 6 10; Step 10; Elapsed 1;
             PositionStatus 0]
  | _ => False
  end.
Proof.
  split; [| vm_compute; repeat split; reflexivity].
  destruct (enter_loop_returns default_fields 0) as (img0 & He & S0);
    [simpl; lia | simpl; lia |].
  change (has_shape 250 1000 img0) in S0.
  destruct (default_update_returns img0 5 true false) as (img1 & U1 & S1);
    [lia | exact S0 |].
  destruct (default_update_returns img1 7 true false) as (img2 & U2 & S2);
    [lia | exact S1 |].
  destruct (default_update_returns img2 10 false true) as (img3 & U3 & _);
    [lia | exact S2 |].
  eexists _, _, _, _.
  split; [exact He |].
  split.
  { unfold body. erewrite dispatch_buy; [| reflexivity | exact U1].
    simpl bind. reflexivity. }
  split.
  { unfold body. erewrite dispatch_buy; [| reflexivity | exact U2].
    simpl bind. reflexivity. }
  split; [reflexivity |]. split; [reflexivity |]. split; [reflexivity |].
  split.
  { unfold body.
    erewrite dispatch_sell; [| reflexivity | reflexivity | exact U3].
    simpl bind. reflexivity. }
  split; [reflexivity |]. split; [reflexivity |]. reflexivity.
Qed.

(** C6.  In a state whose transaction flag is set: the buy key and the
    sell key are ignored (same state, nothing printed); along any passes of
    the loop with these keys in which the tick gate stays closed, the
    position, the trade history and the chart do not change and the flag
    stays set; and the pass in which the gate opens clears the flag, still
    without touching the position, the history or the chart. *)
Theorem second_transaction_ignored (sim : TradingSimulator) (s : State)
    (script : list Input) :
  transaction_made_in_tick s = true ->
  Forall (fun i => buy_or_sell (key i) /\ ~ gate_fires sim (clock i) s)
         script ->
  (forall k, buy_or_sell k -> dispatch sim k s = ret (Continue s [])) /\
  exists s',
    run sim script s = ret (Continue s' []) /\
    same_ledger_and_chart s s' /\
    transaction_made_in_tick s' = true /\
    forall i, buy_or_sell (key i) -> gate_fires sim (clock i) s' ->
      exists s'' out,
        iteration sim i s' = ret (Continue s'' out) /\
        same_ledger_and_chart s s'' /\
        transaction_made_in_tick s'' = false.
Proof.
  intros Hf Hs. split.
  - intros k Hk. by apply dispatch_ignored.
  - destruct (run_ignored sim script s Hf Hs) as (s' & Hrun & Hsame & Hf' & _).
    exists s'. repeat (split; [assumption |]).
    intros i Hk Hg.
    destruct (iteration_resets_flag sim i s' Hf' Hk Hg)
      as (s'' & out & Hi & Hsame' & Hf'').
    exists s'', out. repeat (split; [assumption |]). split; [| exact Hf''].
    destruct Hsame as (H1 & H2 & H3), Hsame' as (H1' & H2' & H3').
    unfold same_ledger_and_chart. rewrite H1', H2', H3'. auto.
Qed.

Lemma second_transaction_ignored_witness :
  (forall k, buy_or_sell k ->
     dispatch small_fields k traded_state = ret (Continue traded_state [])) /\
  exists s',
    run small_fields impatient_session traded_state = ret (Continue s' []) /\
    same_ledger_and_chart traded_state s' /\
    transaction_made_in_tick s' = true /\
    forall i, buy_or_sell (key i) -> gate_fires small_fields (clock i) s' ->
      exists s'' out,
        iteration small_fields i s' = ret (Continue s'' out) /\
        same_ledger_and_chart traded_state s'' /\
        transaction_made_in_tick s'' = false.
Proof.
  apply (second_transaction_ignored small_fields traded_state
           impatient_session).
  - reflexivity.
  - repeat constructor; unfold buy_or_sell, gate_fires; simpl; auto; lra.
Defined.

(** * Further properties *)

(** ** The price process *)



(** X2.  [number_generator] is monotone in the draw: for a previous value
    that is not negative, a larger sample of [random()] never gives a
    smaller price. *)
Theorem number_generator_monotone (r1 r2 : Q) (previous reference : Z) :
  0 <= previous -> (0 <= r1)%Q -> (r1 <= r2)%Q ->
  number_generator r1 previous reference
  <= number_generator r2 previous reference.
Proof.
  intros Hp H1 H12.
  pose proof (inject_Z_nonneg previous Hp) as Hq.
  unfold number_generator.
  destruct (previous >? reference); unfold uniform.
  - rewrite !py_int_floor by nra. apply Qfloor_resp_le. nra.
  - rewrite !py_int_floor by nra. apply Qfloor_resp_le. nra.
Qed.

Lemma number_generator_monotone_witness :
  number_generator 0 50 45 <= number_generator 1 50 45.
Proof.
  apply (number_generator_monotone 0 1 50 45); [lia | lra | lra].
Defined.

(** With the smallest draw a positive price falls. *)
Lemma smallest_draw_falls (previous reference : Z) :
  0 <= previous ->
  0 <= number_generator 0 previous reference /\
  (0 < previous -> number_generator 0 previous reference < previous).
Proof.
  intros Hp.
  assert (Hr : unit_sample 0) by (unfold unit_sample; lra).
  destruct (number_generator_range 0 previous reference Hp Hr) as (H0 & _ & _).
  split; [exact H0 |]. intros Hpos.
  pose proof (inject_Z_nonneg previous Hp) as Hq.
  assert (Hlt : (inject_Z (number_generator 0 previous reference)
                 < inject_Z previous)%Q).
  { assert (0 < inject_Z previous)%Q
      by (change 0%Q with (inject_Z 0); rewrite <- Zlt_Qlt; exact Hpos).
    unfold number_generator.
    destruct (previous >? reference); unfold uniform;
      (rewrite py_int_floor by nra);
      (eapply Qle_lt_trans; [apply Qfloor_le |]); nra. }
  rewrite <- Zlt_Qlt in Hlt. exact Hlt.
Qed.

(** X3.  Zero can be reached from every price: with the smallest draw in
    each pass, a price [start] that is not negative is zero after [start]
    passes at the latest, whatever the reference value. *)
Theorem smallest_draws_reach_zero (reference : Z) (n : nat) (start : Z) :
  0 <= start <= Z.of_nat n ->
  price_path reference (replicate n 0%Q) start = 0.
Proof.
  revert start. induction n as [| n IH]; intros start Hs.
  - unfold price_path. simpl. lia.
  - change (price_path reference (replicate (S n) 0%Q) start)
      with (price_path reference (replicate n 0%Q)
              (number_generator 0 start reference)).
    apply IH.
    destruct (smallest_draw_falls start reference (proj1 Hs)) as [H0 Hlt].
    destruct (Z.eq_dec start 0) as [-> | Hne].
    + assert (Hr : unit_sample 0) by (unfold unit_sample; lra).
      pose proof (number_generator_below_four 0 0 reference Hr ltac:(lia)).
      lia.
    + specialize (Hlt ltac:(lia)). lia.
Qed.

Lemma smallest_draws_reach_zero_witness :
  price_path 45 (replicate 3 0%Q) 3 = 0.
Proof.
  apply (smallest_draws_reach_zero 45 3 3). simpl. lia.
Defined.

(** ** Construction *)

(** X4.  The exception of a failed construction.  [__init__] raises
    [ZeroDivisionError] exactly when [n_ticks] is zero or [n_max] equals
    [n_min], and [AssertionError] exactly when neither holds and the image
    width is not a multiple of [n_ticks]; it raises nothing else. *)
Theorem init_error (n_max n_min n_ticks : Z) (t : Q) (shape : Z * Z)
    (show : bool) (e : Error) :
  __init__ n_max n_min n_ticks t shape show = inl e ->
  (e = ZeroDivisionError /\ (n_ticks = 0 \/ n_max = n_min)) \/
  (e = AssertionError /\ n_ticks <> 0 /\ n_max <> n_min /\
   snd shape mod n_ticks <> 0).
Proof.
  unfold __init__, py_floordiv, py_truediv, py_assert.
  destruct (Z.eqb_spec n_ticks 0) as [Ht | Ht]; simpl.
  { intros [= <-]. auto. }
  destruct (Z.eqb_spec (9 * (n_max - n_min)) 0) as [Hr | Hr]; simpl.
  { intros [= <-]. left. split; [reflexivity | lia]. }
  destruct (Z.eqb_spec (snd shape mod n_ticks) 0) as [Hm | Hm]; simpl.
  - discriminate.
  - intros [= <-]. right. repeat split; try assumption. lia.
Qed.

Lemma init_error_witness :
  (ZeroDivisionError = ZeroDivisionError /\ (100 = 0 \/ 5 = 5)) \/
  (ZeroDivisionError = AssertionError /\ 100 <> 0 /\ 5 <> 5 /\
   snd (250, 1000) mod 100 <> 0).
Proof.
  apply (init_error 5 5 100 0.02 (250, 1000) true ZeroDivisionError).
  reflexivity.
Defined.

(** The scale of a constructed simulator maps the range of values onto
    the height of the image. *)
Lemma constructed_scale (a b n : Z) (t : Q) (shape : Z * Z) (show : bool)
    (sim : TradingSimulator) :
  __init__ a b n t shape show = inr sim ->
  possible_range sim = 9 * (n_max sim - n_min sim) /\
  possible_range sim <> 0 /\
  expected_value sim = 45 /\
  (BAR_HEIGHT_MULTIPLIER sim * inject_Z (possible_range sim)
   == inject_Z (fst (image_shape sim)))%Q.
Proof.
  intros (Hn & Hr & Hm & ->)%init_inr. simpl.
  split; [reflexivity |]. split; [lia |]. split; [reflexivity |].
  field. intros H.
  assert (9 * (a - b) = 0); [| lia].
  unfold Qeq in H. simpl in H. lia.
Qed.



(** ** The rows of the chart *)

Lemma Qfloor_lt_iff (x : Q) (n : Z) : Qfloor x < n <-> (x < inject_Z n)%Q.
Proof.
  split; intros H.
  - eapply Qlt_le_trans; [apply Qlt_floor |].
    rewrite <- Zle_Qle. lia.
  - rewrite Zlt_Qlt. eapply Qle_lt_trans; [apply Qfloor_le | exact H].
Qed.

(** With the scale of a constructed simulator, the row of a value lies in
    the column exactly when the value is below the range of values. *)
Lemma scaled_row_in_rows (sim : TradingSimulator) (x : Q) :
  0 < fst (image_shape sim) -> 0 < possible_range sim ->
  (BAR_HEIGHT_MULTIPLIER sim * inject_Z (possible_range sim)
   == inject_Z (fst (image_shape sim)))%Q ->
  (0 <= x)%Q ->
  (- fst (image_shape sim) <= py_int (BAR_HEIGHT_MULTIPLIER sim * x)
   < fst (image_shape sim)) <->
  (x < inject_Z (possible_range sim))%Q.
Proof.
  intros Hh Hr Hs Hx.
  assert (HH : (0 < inject_Z (fst (image_shape sim)))%Q)
    by (change 0%Q with (inject_Z 0); rewrite <- Zlt_Qlt; exact Hh).
  assert (HR : (0 < inject_Z (possible_range sim))%Q)
    by (change 0%Q with (inject_Z 0); rewrite <- Zlt_Qlt; exact Hr).
  set (q := BAR_HEIGHT_MULTIPLIER sim) in *.
  set (R := inject_Z (possible_range sim)) in *.
  assert (Hq : (0 < q)%Q) by nra.
  assert (H0 : (0 <= q * x)%Q) by nra.
  rewrite (py_int_floor _ H0).
  assert (Hf : 0 <= Qfloor (q * x))
    by (change 0 with (Qfloor 0); apply Qfloor_resp_le; exact H0).
  split.
  - intros [_ Hlt]. apply Qfloor_lt_iff in Hlt. rewrite <- Hs in Hlt. nra.
  - intros Hlt. split; [lia |]. apply Qfloor_lt_iff. rewrite <- Hs. nra.
Qed.


Lemma expected_row_in_rows (sim : TradingSimulator) :
  0 < fst (image_shape sim) -> 0 < possible_range sim ->
  (BAR_HEIGHT_MULTIPLIER sim * inject_Z (possible_range sim)
   == inject_Z (fst (image_shape sim)))%Q ->
  0 <= expected_value sim ->
  in_rows sim (expected_row sim) <-> expected_value sim < possible_range sim.
Proof.
  intros Hh Hr Hs Hv. unfold in_rows, expected_row.
  assert (E : py_int (inject_Z (expected_value sim) * BAR_HEIGHT_MULTIPLIER sim)
              = py_int (BAR_HEIGHT_MULTIPLIER sim * inject_Z (expected_value sim))).
  { unfold py_int. simpl. f_equal; [ring | f_equal; lia]. }
  rewrite E.
  rewrite (scaled_row_in_rows sim (inject_Z (expected_value sim)) Hh Hr Hs
             (inject_Z_nonneg _ Hv)).
  rewrite <- Zlt_Qlt. reflexivity.
Qed.

(** With the row of the reference line outside of the column, the first
    write raises. *)
Lemma render_column_reference_raises (sim : TradingSimulator) (v : Z)
    (b s : bool) :
  0 <= fst (image_shape sim) -> 0 <= BAR_WIDTH sim ->
  show_expected_value_line sim = true ->
  ~ in_rows sim (expected_row sim) ->
  render_column sim v b s = inl IndexError.
Proof.
  intros Hh Hw Hshow He. unfold render_column.
  destruct (np_zeros_ok _ _ Hh Hw) as (c0 & -> & [Hl _]). simpl bind.
  rewrite Hshow. rewrite set_row_inl; [reflexivity |].
  rewrite Hl. unfold in_rows in He. lia.
Qed.



(** X7.  A simulator that cannot draw.  On a constructed simulator with a
    positive image height, the reference line shown and [n_max - n_min]
    between 1 and 4, the row of the reference value 45 lies outside of the
    column, and [update] raises [IndexError] for every buffer, value and
    marker. *)
Theorem narrow_range_never_draws (a b n : Z) (t : Q) (shape : Z * Z)
    (show : bool) (sim : TradingSimulator) :
  __init__ a b n t shape show = inr sim ->
  0 < fst (image_shape sim) -> 0 <= BAR_WIDTH sim ->
  show_expected_value_line sim = true ->
  1 <= n_max sim - n_min sim <= 4 ->
  forall img v bought sold, update sim img v bought sold = inl IndexError.
Proof.
  intros Hi Hh Hb Hshow Hd img v bought sold.
  destruct (constructed_scale _ _ _ _ _ _ _ Hi) as (HR & _ & He & Hs).
  apply update_not_rendered.
  apply render_column_reference_raises; [lia | exact Hb | exact Hshow |].
  rewrite expected_row_in_rows; try assumption; lia.
Qed.

Lemma narrow_range_never_draws_witness :
  update narrow_fields (black 9 4) 2 false false = inl IndexError.
Proof.
  apply (narrow_range_never_draws 4 0 2 0.02 (9, 4) true narrow_fields);
    [reflexivity | simpl; lia | simpl; lia | reflexivity | simpl; lia].
Defined.

(** ** The colours of a column *)

Section PlainRows.
Variable S : Pixel -> Prop.
Variable w : nat.

Lemma plain_rows_replicate (h : nat) (c : Pixel) :
  S c -> plain_rows S w (replicate h (replicate w c)).
Proof.
  intros Hc k row [-> _]%lookup_replicate. eauto.
Qed.

Lemma plain_rows_paint (c : Pixel) (k : nat) (a : Image) :
  S c -> plain_rows S w a -> plain_rows S w (alter (paint c) k a).
Proof.
  intros Hc Ha j row Hj.
  rewrite list_lookup_alter in Hj.
  destruct (decide (k = j)) as [-> | Hne].
  - destruct (a !! j) as [row0 |] eqn:E; [| discriminate].
    injection Hj as <-. destruct (Ha _ _ E) as (c0 & _ & ->).
    exists c. split; [exact Hc |]. unfold paint.
    by rewrite length_replicate.
  - eauto.
Qed.

Lemma plain_rows_set_rows (lo hi : Z) (c : Pixel) (a : Image) :
  S c -> plain_rows S w a -> plain_rows S w (set_rows lo hi c a).
Proof.
  intros Hc Ha j row Hj. unfold set_rows in Hj.
  apply list_lookup_imap_Some in Hj as (row0 & E & ->).
  destruct (Ha _ _ E) as (c0 & Hc0 & ->).
  destruct (_ && _); [| eauto].
  exists c. split; [exact Hc |]. unfold paint. by rewrite length_replicate.
Qed.

Lemma plain_rows_set_row (i : Z) (c : Pixel) (a a' : Image) :
  S c -> plain_rows S w a -> set_row i c a = inr a' -> plain_rows S w a'.
Proof.
  intros Hc Ha (_ & ->)%set_row_inr. by apply plain_rows_paint.
Qed.

End PlainRows.

(** The column before its last write: rows of one dark colour each. *)
Lemma render_column_dark (sim : TradingSimulator) (v : Z) (b s : bool)
    (col : Image) :
  render_column sim v b s = inr col ->
  exists c,
    length c = Z.to_nat (fst (image_shape sim)) /\
    plain_rows (fun p => In p dark_colours) (Z.to_nat (BAR_WIDTH sim)) c /\
    set_row (value_row sim v) (255, 255, 255) c = inr col.
Proof.
  unfold render_column. intros E.
  destruct (np_zeros _ _) as [e | c0] eqn:E0; [discriminate |].
  apply np_zeros_inr in E0 as (Hh & Hw & Hc0). simpl bind in E.
  set (H := Z.to_nat (fst (image_shape sim))) in *.
  set (W := Z.to_nat (BAR_WIDTH sim)) in *.
  assert (P0 : plain_rows (fun p => In p dark_colours) W c0)
    by (rewrite Hc0; apply plain_rows_replicate; simpl; tauto).
  assert (L0 : length c0 = H) by (rewrite Hc0; apply length_replicate).
  clear Hc0.
  match type of E with
  | bind ?m _ = _ => destruct m as [e | c1] eqn:E1; [discriminate |]
  end.
  simpl bind in E.
  assert (P1 : plain_rows (fun p => In p dark_colours) W c1 /\ length c1 = H).
  { destruct (show_expected_value_line sim).
    - split.
      + refine (plain_rows_set_row _ _ _ _ _ _ _ P0 E1). simpl. tauto.
      + apply set_row_inr in E1 as (_ & ->). by rewrite length_alter.
    - injection E1 as <-. auto. }
  destruct P1 as [P1 L1].
  eexists. split; [| split; [| exact E]].
  - destruct (b || s); [destruct (v >? expected_value sim) |];
      unfold set_rows; rewrite ?length_imap; exact L1.
  - destruct (b || s); [destruct (v >? expected_value sim) |];
      try exact P1; apply plain_rows_set_rows; try exact P1;
      destruct b; simpl; tauto.
Qed.

(** X8.  The colours of a drawn column.  When [update] draws a column,
    every row of it has one colour over the whole bar width: white, or one
    of black, (255, 0, 0) of the reference line, (0, 255, 0) of a purchase
    and (0, 0, 255) of a sale; and for a positive bar width exactly one row
    is white, the row of the current value (counted from the end when the
    index is negative), also when it is the row of the reference line. *)
Theorem column_marks_value (sim : TradingSimulator) (v : Z) (b s : bool)
    (col : Image) :
  render_column sim v b s = inr col ->
  (forall k row, col !! k = Some row ->
     exists c, In c ((255, 255, 255) :: dark_colours) /\
               row = replicate (Z.to_nat (BAR_WIDTH sim)) c) /\
  (0 < BAR_WIDTH sim ->
   forall k row, col !! k = Some row ->
     (row = replicate (Z.to_nat (BAR_WIDTH sim)) (255, 255, 255) <->
      k = Z.to_nat (if value_row sim v <? 0
                    then value_row sim v + fst (image_shape sim)
                    else value_row sim v))).
Proof.
  intros E. destruct (render_column_dark sim v b s col E) as (c & Hl & Hc & Hw).
  apply set_row_inr in Hw as (Hin & ->). rewrite Hl in *.
  set (W := Z.to_nat (BAR_WIDTH sim)) in *.
  assert (Hh : 0 <= fst (image_shape sim)) by lia.
  rewrite Z2Nat.id in * by exact Hh.
  set (idx := Z.to_nat (if value_row sim v <? 0
                   then value_row sim v + fst (image_shape sim)
                   else value_row sim v)) in *.
  split.
  - intros k row Hk. rewrite list_lookup_alter in Hk.
    destruct (decide (idx = k)) as [Heq | Hne].
    + apply fmap_Some in Hk as (row0 & E0 & ->).
      destruct (Hc _ _ E0) as (c0 & _ & ->).
      exists (255, 255, 255). split; [simpl; tauto |].
      unfold paint. by rewrite length_replicate.
    + destruct (Hc _ _ Hk) as (c0 & H0 & ->).
      exists c0. split; [simpl; tauto | done].
  - intros Hb k row Hk. rewrite list_lookup_alter in Hk.
    destruct (decide (idx = k)) as [Heq | Hne].
    + apply fmap_Some in Hk as (row0 & E0 & ->).
      destruct (Hc _ _ E0) as (c0 & _ & ->).
      unfold paint. rewrite length_replicate.
      split; [intros _; symmetry; exact Heq | reflexivity].
    + destruct (Hc _ _ Hk) as (c0 & H0 & ->).
      split; [| intros Hk'; symmetry in Hk'; contradiction].
      intros Heq. exfalso.
      destruct W as [| W'] eqn:EW; [lia |].
      simpl in Heq. injection Heq as -> _.
      simpl in H0.
      destruct H0 as [H0 | [H0 | [H0 | [H0 | []]]]]; discriminate H0.
Qed.

Lemma column_marks_value_witness :
  exists col,
    render_column small_fields 50 true false = inr col /\
    (forall k row, col !! k = Some row ->
       exists c, In c ((255, 255, 255) :: dark_colours) /\
                 row = replicate (Z.to_nat (BAR_WIDTH small_fields)) c) /\
    (0 < BAR_WIDTH small_fields ->
     forall k row, col !! k = Some row ->
       (row = replicate (Z.to_nat (BAR_WIDTH small_fields)) (255, 255, 255) <->
        k = Z.to_nat (if value_row small_fields 50 <? 0
                      then value_row small_fields 50
                           + fst (image_shape small_fields)
                      else value_row small_fields 50))).
Proof.
  eexists. split; [reflexivity |].
  apply (column_marks_value small_fields 50 true false). reflexivity.
Defined.

(** ** The scrolling window *)

Lemma render_all_length (sim : TradingSimulator)
    (calls : list (Z * bool * bool)) (cols : list Image) :
  render_all sim calls = inr cols -> length cols = length calls.
Proof.
  revert cols. induction calls as [| [[v b] s] calls IH]; intros cols.
  - by intros [= <-].
  - simpl.
    destruct (render_column sim v b s) as [e | col]; simpl; [discriminate |].
    destruct (render_all sim calls) as [e | cols']; simpl; [discriminate |].
    intros [= <-]. simpl. by rewrite (IH cols').
Qed.

Lemma rendered_heights (sim : TradingSimulator)
    (calls : list (Z * bool * bool)) (cols : list Image) :
  render_all sim calls = inr cols ->
  Forall (fun col => length col = Z.to_nat (fst (image_shape sim))) cols.
Proof.
  revert cols. induction calls as [| [[v b] s] calls IH]; intros cols.
  - intros [= <-]. constructor.
  - simpl.
    destruct (render_column sim v b s) as [e | col] eqn:Ec; simpl;
      [discriminate |].
    destruct (render_all sim calls) as [e | cols']; simpl; [discriminate |].
    intros [= <-]. constructor; [| by apply IH].
    apply render_column_shape in Ec as (_ & _ & _ & [Hl _]). exact Hl.
Qed.

Lemma join_columns_length (h : nat) (cols : list Image) :
  Forall (fun col => length col = h) cols ->
  length (join_columns h cols) = h.
Proof.
  intros H. unfold join_columns.
  induction H as [| col cols Hc _ IH]; simpl.
  - apply length_replicate.
  - rewrite length_zip_with, IH, Hc. lia.
Qed.

(** The scroll step, row by row. *)
Lemma append_and_scroll_rows (sim : TradingSimulator) (img col : Image) :
  0 <= BAR_WIDTH sim -> length img = length col ->
  append_and_scroll sim img col
  = inr (zip_with app (drop (Z.to_nat (BAR_WIDTH sim)) <$> img) col).
Proof.
  intros Hb Hl. unfold append_and_scroll.
  rewrite np_delete_columns_drop by exact Hb.
  unfold np_concatenate_columns. by rewrite length_fmap, Hl, Nat.eqb_refl.
Qed.

Lemma scrolled_rows (b k w : nat) (img col rest : Image) :
  (b <= w)%nat -> Forall (fun row => length row = w) img ->
  drop (k * b) <$> zip_with app (zip_with app (drop b <$> img) col) rest
  = drop (S k * b) <$> zip_with app img (zip_with app col rest).
Proof.
  intros Hb Hw. apply list_eq. intros i.
  rewrite !list_lookup_fmap, !lookup_zip_with, list_lookup_fmap.
  destruct (img !! i) as [row |] eqn:Hi; simpl; [| reflexivity].
  destruct (col !! i) as [c |]; simpl; [| reflexivity].
  destruct (rest !! i) as [r |]; simpl; [| reflexivity].
  f_equal. rewrite Forall_lookup in Hw. specialize (Hw _ _ Hi).
  rewrite <- app_assoc.
  rewrite <- drop_drop. f_equal.
  rewrite drop_app_le by lia. reflexivity.
Qed.

(** After any run of calls, a row of the buffer is the row of the input
    followed by the rows of the new columns, without its first pixels: one
    bar for each call. *)
Lemma update_all_rows (sim : TradingSimulator)
    (calls : list (Z * bool * bool)) (img : Image) (w : nat) :
  (calls <> [] -> (Z.to_nat (BAR_WIDTH sim) <= w)%nat) ->
  has_shape (Z.to_nat (fst (image_shape sim))) w img ->
  update_all sim calls img =
  (cols <- render_all sim calls ;;
   ret (drop (length cols * Z.to_nat (BAR_WIDTH sim))
          <$> zip_with app img
                (join_columns (Z.to_nat (fst (image_shape sim))) cols))).
Proof.
  revert img.
  induction calls as [| [[v b] s] calls IH]; intros img Hw Hs.
  - simpl. unfold ret. f_equal. apply list_eq. intros i.
    rewrite list_lookup_fmap, lookup_zip_with.
    destruct (img !! i) as [row |] eqn:Hi; simpl; [| reflexivity].
    rewrite lookup_replicate_2; simpl.
    + by rewrite app_nil_r.
    + apply lookup_lt_Some in Hi. destruct Hs as [<- _]. exact Hi.
  - specialize (Hw ltac:(discriminate)).
    simpl update_all. simpl render_all. unfold update.
    destruct (render_column sim v b s) as [e | col] eqn:Ec; simpl bind;
      [reflexivity |].
    pose proof Ec as (_ & Hb & _ & Sc)%render_column_shape.
    destruct (append_and_scroll_spec sim img col _ w Hb Hw Hs Sc)
      as (img1 & E1 & S1 & _).
    rewrite E1. simpl bind. rewrite (IH _ (fun _ => Hw) S1).
    destruct (render_all sim calls) as [e | cols]; simpl bind;
      [reflexivity |].
    unfold ret. f_equal.
    assert (Hl : length img = length col)
      by (destruct Hs as [Hl _], Sc as [Hl' _]; congruence).
    rewrite (append_and_scroll_rows _ _ _ Hb Hl) in E1.
    injection E1 as <-. simpl length.
    apply (scrolled_rows _ _ w); [exact Hw | by destruct Hs].
Qed.

(** X9.  The chart is a window on the last bars.  On a buffer of the
    image height whose width is [n] bars, [n] consecutive calls of [update]
    return the [n] columns of these calls side by side, oldest leftmost:
    nothing of the input buffer is left.  If drawing one of the columns
    raises, the calls raise the same exception. *)
Theorem chart_is_last_bars (sim : TradingSimulator)
    (calls : list (Z * bool * bool)) (img : Image) (w : nat) :
  has_shape (Z.to_nat (fst (image_shape sim))) w img ->
  w = (length calls * Z.to_nat (BAR_WIDTH sim))%nat ->
  update_all sim calls img =
  (cols <- render_all sim calls ;;
   ret (join_columns (Z.to_nat (fst (image_shape sim))) cols)).
Proof.
  intros Hs Hw.
  rewrite (update_all_rows sim calls img w);
    [| destruct calls; [done | simpl in Hw; lia] | exact Hs].
  destruct (render_all sim calls) as [e | cols] eqn:Er; simpl bind;
    [reflexivity |].
  unfold ret. f_equal.
  rewrite (render_all_length _ _ _ Er), <- Hw.
  pose proof (join_columns_length _ _ (rendered_heights _ _ _ Er)) as Hj.
  apply list_eq. intros i.
  rewrite list_lookup_fmap, lookup_zip_with.
  destruct Hs as [Hl Hr]. rewrite Forall_lookup in Hr.
  destruct (img !! i) as [row |] eqn:Hi; simpl.
  - destruct (join_columns _ cols !! i) as [j |]; simpl; [| reflexivity].
    f_equal. rewrite <- (Hr _ _ Hi). apply drop_app_length.
  - symmetry. apply lookup_ge_None. apply lookup_ge_None in Hi. lia.
Qed.

Lemma chart_is_last_bars_witness :
  update_all small_fields [(50, true, false); (44, false, false)] (black 9 4) =
  (cols <- render_all small_fields [(50, true, false); (44, false, false)] ;;
   ret (join_columns (Z.to_nat (fst (image_shape small_fields))) cols)).
Proof.
  apply (chart_is_last_bars small_fields
           [(50, true, false); (44, false, false)] (black 9 4) 4).
  - apply (has_shape_zeros 9 4).
  - reflexivity.
Defined.

(** ** Sessions *)

Lemma update_keeps_shape (sim : TradingSimulator) (img img' : Image) (w : nat)
    (v : Z) (b s : bool) :
  update sim img v b s = inr img' ->
  (Z.to_nat (BAR_WIDTH sim) <= w)%nat ->
  has_shape (Z.to_nat (fst (image_shape sim))) w img ->
  has_shape (Z.to_nat (fst (image_shape sim))) w img'.
Proof.
  intros E Hw Hs. unfold update in E.
  destruct (render_column sim v b s) as [e | col] eqn:Ec; [discriminate |].
  simpl bind in E.
  apply render_column_shape in Ec as (_ & Hb & _ & Sc).
  destruct (append_and_scroll_spec sim img col _ w Hb Hw Hs Sc)
    as (img1 & E1 & S1 & _).
  rewrite E1 in E. injection E as <-. exact S1.
Qed.

(** The branches of the key dispatch, when it returns. *)
Lemma dispatch_inr (sim : TradingSimulator) (k : Z) (s : State)
    (r : Step_result) :
  dispatch sim k s = inr r ->
  (k = 27 /\ r = Break s) \/
  (k = ord "c" /\ transaction_made_in_tick s = false /\
   exists img', update sim (img s) (next_val s) true false = inr img' /\
                r = Continue (bought_state s img') [BoughtAt (next_val s)]) \/
  (k = ord "v" /\ transaction_made_in_tick s = false /\
   exists entries img',
     bought_position s = Some entries /\
     update sim (img s) (next_val s) false true = inr img' /\
     r = Continue (sold_state s entries img')
           [SoldAt (next_val s);
            Profit (Qred (np_mean entries - inject_Z (next_val s)))
                   (np_mean entries) (next_val s)]) \/
  (k <> 27 /\ exists out, r = Continue s out /\
                          transactions out = 0%nat /\ ticks out = 0%nat).
Proof.
  unfold dispatch.
  destruct (Z.eqb_spec k 27) as [-> | H27].
  { intros [= <-]. auto. }
  destruct (Z.eqb_spec k (ord "c")) as [-> | Hc];
    destruct (transaction_made_in_tick s) eqn:Hf; simpl.
  - intros [= <-]. right. right. right. split; [exact H27 |]. eauto.
  - destruct (update sim (img s) (next_val s) true false) as [e | img'] eqn:Eu;
      simpl; [discriminate |].
    intros [= <-]. right. left. eauto 10.
  - rewrite ?andb_false_r.
    destruct (k =? ord "s"); [| destruct (k =? ord "q")];
      intros [= <-]; right; right; right; (split; [exact H27 |]); eauto.
  - destruct (Z.eqb_spec k (ord "v")) as [-> | Hv]; simpl.
    + destruct (bought_position s) as [entries |] eqn:Hp; simpl.
      * destruct (update sim (img s) (next_val s) false true)
          as [e | img'] eqn:Eu; simpl; [discriminate |].
        intros [= <-]. right. right. left. eauto 10.
      * intros [= <-]. right. right. right. split; [exact H27 |]. eauto.
    + destruct (k =? ord "s"); [| destruct (k =? ord "q")];
        intros [= <-]; right; right; right; (split; [exact H27 |]); eauto.
Qed.

(** The tick gate, when it returns. *)
Lemma tick_gate_inr (sim : TradingSimulator) (t : Q) (s s' : State)
    (out : list Output) :
  tick_gate sim t s = inr (s', out) ->
  trades s' = trades s /\ bought_position s' = bought_position s /\
  next_val s' = next_val s /\
  ((~ gate_fires sim t s /\ s' = s /\ out = []) \/
   (gate_fires sim t s /\
    out = [Step (next_val s); Elapsed (Qred (t - previous_step_time s))] /\
    transaction_made_in_tick s' = false /\
    (if transaction_made_in_tick s then img s' = img s
     else update sim (img s) (next_val s) false false = inr (img s')))).
Proof.
  unfold tick_gate, gate_fires.
  destruct (Qlt_le_dec _ _) as [Hlt | Hle].
  - destruct (transaction_made_in_tick s) eqn:Hf; simpl.
    + intros [= <- <-]. simpl. auto 10.
    + destruct (update sim (img s) (next_val s) false false)
        as [e | img'] eqn:Eu; simpl; [discriminate |].
      intros [= <- <-]. simpl. auto 10.
  - intros [= <- <-]. split; [reflexivity |]. split; [reflexivity |].
    split; [reflexivity |]. left. split; [lra | auto].
Qed.

Lemma body_inr (sim : TradingSimulator) (k : Z) (t : Q) (s : State)
    (r : Step_result) :
  body sim k t s = inr r ->
  (exists s1, dispatch sim k s = inr (Break s1) /\ r = Break s1) \/
  (exists s1 out1 s2 out2,
     dispatch sim k s = inr (Continue s1 out1) /\
     tick_gate sim t s1 = inr (s2, out2) /\
     r = Continue s2 (out1 ++ out2)).
Proof.
  unfold body.
  destruct (dispatch sim k s) as [e | [s1 out1 | s1]]; simpl;
    [discriminate | | intros [= <-]; eauto].
  destruct (tick_gate sim t s1) as [e | [s2 out2]] eqn:Et; simpl;
    [discriminate |].
  intros [= <-]. right. eauto 10.
Qed.

(** What a pass does to the price and to the ledger. *)
Lemma iteration_inr (sim : TradingSimulator) (i : Input) (s : State)
    (r : Step_result) :
  iteration sim i s = inr r ->
  next_val (state_of r) = drawn sim i s /\
  ((trades (state_of r) = trades s /\
    bought_position (state_of r) = bought_position s) \/
   (key i = ord "c" /\ trades (state_of r) = trades s /\
    bought_position (state_of r)
    = Some (match bought_position s with
            | None => [drawn sim i s]
            | Some entries => entries ++ [drawn sim i s]
            end)) \/
   (key i = ord "v" /\ bought_position (state_of r) = None /\
    exists entries,
      bought_position s = Some entries /\
      trades (state_of r)
      = trades s ++ [{| buy := np_mean entries; sell := drawn sim i s |}])).
Proof.
  unfold iteration, drawn. intros Hit.
  set (v := number_generator _ _ _) in *.
  apply body_inr in Hit as [(s1 & Hd & ->) | (s1 & o1 & s2 & o2 & Hd & Hg & ->)].
  - apply dispatch_inr in Hd
      as [[_ [= ->]] | [(_ & _ & ? & _ & [=]) | [(_ & _ & ? & ? & _ & _ & [=])
          | (_ & ? & [=] & _)]]].
    simpl. auto.
  - simpl.
    apply tick_gate_inr in Hg as (-> & -> & -> & _).
    apply dispatch_inr in Hd
      as [[_ [=]] | [(Hk & _ & img' & Hu & [= -> _])
          | [(Hk & _ & en & img' & Hp & Hu & [= -> _])
          | (_ & ? & [= -> _] & _)]]]; simpl.
    + split; [reflexivity |]. right. left. auto.
    + split; [reflexivity |]. right. right. simpl in Hp. eauto.
    + auto.
Qed.

(** The first pass of a session and the rest of it. *)
Lemma run_cons_inr (sim : TradingSimulator) (i : Input) (script : list Input)
    (s : State) (r : Step_result) :
  run sim (i :: script) s = inr r ->
  (exists s1, iteration sim i s = inr (Break s1) /\ r = Break s1) \/
  (exists s1 out1 r2,
     iteration sim i s = inr (Continue s1 out1) /\
     run sim script s1 = inr r2 /\
     r = match r2 with
         | Break s2 => Break s2
         | Continue s2 out2 => Continue s2 (out1 ++ out2)
         end).
Proof.
  simpl.
  destruct (iteration sim i s) as [e | [s1 out1 | s1]] eqn:Ei; simpl;
    [discriminate | | intros [= <-]; eauto].
  destruct (run sim script s1) as [e | r2] eqn:Er; simpl; [discriminate |].
  intros Hr. right. exists s1, out1, r2.
  split; [reflexivity |]. split; [exact Er |].
  destruct r2; injection Hr as <-; reflexivity.
Qed.

(** An invariant of every pass is an invariant of every session. *)
Lemma run_invariant (sim : TradingSimulator) (P : State -> Prop) :
  (forall i s r, P s -> iteration sim i s = inr r -> P (state_of r)) ->
  forall script s r, P s -> run sim script s = inr r -> P (state_of r).
Proof.
  intros Hstep script. induction script as [| i script IH]; intros s r Hs.
  - intros [= <-]. exact Hs.
  - intros [(s1 & Ei & ->) | (s1 & o1 & r2 & Ei & Er & ->)]%run_cons_inr.
    + exact (Hstep _ _ _ Hs Ei).
    + pose proof (Hstep _ _ _ Hs Ei) as H1. simpl in H1.
      pose proof (IH _ _ H1 Er) as H2. by destruct r2.
Qed.

(** A session in two parts. *)
Lemma run_app (sim : TradingSimulator) (pre post : list Input) (s : State) :
  run sim (pre ++ post) s =
  match run sim pre s with
  | inr (Continue s1 out) =>
      match run sim post s1 with
      | inr (Continue s2 out') => inr (Continue s2 (out ++ out'))
      | other => other
      end
  | other => other
  end.
Proof.
  revert s. induction pre as [| i pre IH]; intros s.
  - simpl. destruct (run sim post s) as [e | [s2 out' | s2]]; reflexivity.
  - simpl.
    destruct (iteration sim i s) as [e | [s1 out1 | s1]]; simpl;
      [reflexivity | | reflexivity].
    rewrite IH.
    destruct (run sim pre s1) as [e | [s2 out2 | s2]]; simpl;
      [reflexivity | | reflexivity].
    destruct (run sim post s2) as [e | [s3 out3 | s3]]; simpl;
      [reflexivity | | reflexivity].
    by rewrite app_assoc.
Qed.

(** X10.  The chart keeps the shape of the image.  For a constructed
    simulator, in whatever way a session of [__call__] ends without an
    exception (inputs used up, or ESC), the buffer has the height and the
    width of [image_shape]. *)
Theorem session_keeps_chart_shape (a b n : Z) (t : Q) (shape : Z * Z)
    (show : bool) (sim : TradingSimulator) (now : Q) (script : list Input)
    (r : Step_result) :
  __init__ a b n t shape show = inr sim ->
  __call__ sim now script = inr r ->
  has_shape (Z.to_nat (fst shape)) (Z.to_nat (snd shape)) (img (state_of r)).
Proof.
  intros Hi Hc.
  destruct (constructed_width _ _ _ _ _ _ _ Hi) as [Hw Hn].
  assert (Hshape : image_shape sim = shape).
  { apply init_inr in Hi as (_ & _ & _ & ->). reflexivity. }
  unfold __call__, enter_loop in Hc.
  destruct (np_zeros _ _) as [e | img0] eqn:E0; [discriminate |].
  apply np_zeros_shape in E0 as (Hh0 & Hw0 & S0). simpl bind in Hc.
  rewrite <- Hshape.
  assert (Hbw : (Z.to_nat (BAR_WIDTH sim)
                 <= Z.to_nat (snd (image_shape sim)))%nat) by nia.
  revert Hc.
  match goal with
  | |- run sim script ?s0 = _ -> _ =>
      apply (run_invariant sim
               (fun s => has_shape (Z.to_nat (fst (image_shape sim)))
                           (Z.to_nat (snd (image_shape sim))) (img s)))
  end; [| exact S0].
  clear - Hbw. intros i s0 r Hs0 Hit.
  unfold iteration in Hit.
  set (s := set_next_val _ s0) in Hit.
  assert (Hs : has_shape (Z.to_nat (fst (image_shape sim)))
                 (Z.to_nat (snd (image_shape sim))) (img s)) by exact Hs0.
  clearbody s. clear Hs0 s0.
  apply body_inr in Hit as [(s1 & Hd & ->) | (s1 & o1 & s2 & o2 & Hd & Hg & ->)].
  - apply dispatch_inr in Hd
      as [[_ [= ->]] | [(_ & _ & ? & _ & [=]) | [(_ & _ & ? & ? & _ & _ & [=])
          | (_ & ? & [=] & _)]]].
    exact Hs.
  - simpl.
    assert (H1 : has_shape (Z.to_nat (fst (image_shape sim)))
                   (Z.to_nat (snd (image_shape sim))) (img s1)).
    { apply dispatch_inr in Hd
        as [[_ [=]] | [(_ & _ & img' & Hu & [= -> _])
            | [(_ & _ & en & img' & _ & Hu & [= -> _])
            | (_ & ? & [= -> _] & _)]]]; simpl;
        try exact Hs; eapply update_keeps_shape; eauto. }
    apply tick_gate_inr in Hg as (_ & _ & _ & [(_ & -> & _) | (_ & _ & _ & Hg)]);
      [exact H1 |].
    destruct (transaction_made_in_tick s1).
    + by rewrite Hg.
    + eapply update_keeps_shape; eauto.
Qed.

Lemma session_keeps_chart_shape_witness :
  exists r,
    __call__ small_fields 0 impatient_session = inr r /\
    has_shape (Z.to_nat (fst (9, 4))) (Z.to_nat (snd (9, 4)))
      (img (state_of r)).
Proof.
  eexists. split; [reflexivity |].
  apply (session_keeps_chart_shape 10 0 2 0.02 (9, 4) true small_fields 0
           impatient_session); reflexivity.
Defined.

(** X11.  The trade history only grows.  Whatever a session does, the
    history at its end is the history at its start followed by new
    records, at most one for each pass in which the sell key was
    pressed. *)
Theorem ledger_grows (sim : TradingSimulator) (script : list Input)
    (s : State) (r : Step_result) :
  run sim script s = inr r ->
  exists new,
    trades (state_of r) = trades s ++ new /\
    (length new <= length (filter (fun i => key i = ord "v") script))%nat.
Proof.
  revert s r. induction script as [| i script IH]; intros s r.
  - intros [= <-]. exists []. simpl. by rewrite app_nil_r.
  - intros Hr.
    change (i :: script) with ([i] ++ script). rewrite filter_app, length_app.
    assert (H1 : forall r1, iteration sim i s = inr r1 ->
               exists new1,
                 trades (state_of r1) = trades s ++ new1 /\
                 (length new1
                  <= length (filter (fun i => key i = ord "v") [i]))%nat).
    { intros r1 Ei. apply iteration_inr in Ei
        as (_ & [[-> _] | [(_ & -> & _) | (Hk & _ & en & _ & ->)]]).
      - exists []. rewrite app_nil_r. split; [done | simpl; lia].
      - exists []. rewrite app_nil_r. split; [done | simpl; lia].
      - eexists. split; [reflexivity |].
        rewrite filter_cons_True by exact Hk. simpl. lia. }
    apply run_cons_inr in Hr as [(s1 & Ei & ->) | (s1 & o1 & r2 & Ei & Er & ->)].
    + destruct (H1 _ Ei) as (new1 & Hn1 & Hl1).
      exists new1. split; [exact Hn1 | lia].
    + destruct (H1 _ Ei) as (new1 & Hn1 & Hl1).
      destruct (IH _ _ Er) as (new2 & Hn2 & Hl2). simpl in Hn1.
      exists (new1 ++ new2). rewrite length_app. split; [| lia].
      rewrite app_assoc, <- Hn1, <- Hn2. by destruct r2.
Qed.

Lemma ledger_grows_witness :
  exists r,
    run small_fields impatient_session flat_state = inr r /\
    exists new,
      trades (state_of r) = trades flat_state ++ new /\
      (length new
       <= length (filter (fun i => key i = ord "v") impatient_session))%nat.
Proof.
  eexists. split; [reflexivity |].
  apply (ledger_grows small_fields impatient_session flat_state).
  reflexivity.
Defined.

(** X12.  The open position is never an empty list: when it is [None] or
    holds an entry at the start of a session, it is [None] or holds an
    entry at the end, so [np.mean] is never taken of an empty list. *)
Theorem position_never_empty (sim : TradingSimulator) (script : list Input)
    (s : State) (r : Step_result) :
  bought_position s <> Some [] ->
  run sim script s = inr r ->
  bought_position (state_of r) <> Some [].
Proof.
  intros Hs. revert script s r Hs.
  apply (run_invariant sim (fun s => bought_position s <> Some [])).
  intros i s r Hs
    (_ & [[_ ->] | [(_ & _ & ->) | (_ & -> & _)]])%iteration_inr.
  - exact Hs.
  - destruct (bought_position s) as [[| e en] |]; discriminate.
  - discriminate.
Qed.

Lemma position_never_empty_witness :
  exists r,
    run small_fields impatient_session flat_state = inr r /\
    bought_position (state_of r) <> Some [].
Proof.
  eexists. split; [reflexivity |].
  apply (position_never_empty small_fields impatient_session flat_state);
    [discriminate | reflexivity].
Defined.

Lemma transactions_app (out out' : list Output) :
  transactions (out ++ out') = (transactions out + transactions out')%nat.
Proof. unfold transactions. by rewrite List.filter_app, length_app. Qed.

Lemma ticks_app (out out' : list Output) :
  ticks (out ++ out') = (ticks out + ticks out')%nat.
Proof. unfold ticks. by rewrite List.filter_app, length_app. Qed.

(** A transaction is paid for by the flag, and the flag by a tick. *)
Lemma body_transactions (sim : TradingSimulator) (k : Z) (t : Q)
    (s s' : State) (out : list Output) :
  body sim k t s = inr (Continue s' out) ->
  (transactions out + flag_weight s <= ticks out + flag_weight s')%nat.
Proof.
  intros [(s1 & _ & [=]) | (s1 & o1 & s2 & o2 & Hd & Hg & [= -> ->])]%body_inr.
  rewrite transactions_app, ticks_app.
  assert (H1 : (transactions o1 + flag_weight s
                <= ticks o1 + flag_weight s1)%nat).
  { apply dispatch_inr in Hd
      as [[_ [=]] | [(_ & Hf & img' & _ & [= -> ->])
          | [(_ & Hf & en & img' & _ & _ & [= -> ->])
          | (_ & ? & [= -> ->] & -> & ->)]]];
      unfold flag_weight; simpl; try rewrite Hf; simpl; lia. }
  assert (H2 : (transactions o2 + flag_weight s1
                <= ticks o2 + flag_weight s2)%nat).
  { apply tick_gate_inr in Hg
      as (_ & _ & _ & [(_ & -> & ->) | (_ & -> & Hf & _)]).
    - simpl. lia.
    - unfold flag_weight. rewrite Hf.
      destruct (transaction_made_in_tick s1); simpl; lia. }
  lia.
Qed.

Lemma run_transactions (sim : TradingSimulator) (script : list Input)
    (s s' : State) (out : list Output) :
  run sim script s = inr (Continue s' out) ->
  (transactions out + flag_weight s <= ticks out + flag_weight s')%nat.
Proof.
  revert s s' out. induction script as [| i script IH]; intros s s' out.
  - intros [= <- <-]. simpl. lia.
  - intros [(s1 & _ & [=]) | (s1 & o1 & r2 & Ei & Er & Hr)]%run_cons_inr.
    destruct r2 as [s2 o2 |]; [| discriminate]. injection Hr as -> ->.
    apply body_transactions in Ei. apply IH in Er.
    rewrite transactions_app, ticks_app.
    change (flag_weight (set_next_val _ s)) with (flag_weight s) in Ei. lia.
Qed.

(** X13.  One transaction for each tick, over a session.  In the log of a
    session that uses up its inputs, the lines "Bought at" and "Sold at"
    are at most one more than the lines "Step"; they are at most as many
    when the session starts after a transaction of the current tick, and
    when it ends with no transaction in the current tick. *)
Theorem transactions_bounded_by_ticks (sim : TradingSimulator)
    (script : list Input) (s s' : State) (out : list Output) :
  run sim script s = inr (Continue s' out) ->
  (transactions out <= ticks out + 1)%nat /\
  (transaction_made_in_tick s = true -> transactions out <= ticks out)%nat /\
  (transaction_made_in_tick s' = false -> transactions out <= ticks out)%nat.
Proof.
  intros Hr%run_transactions. unfold flag_weight in Hr.
  split; [| split].
  - destruct (transaction_made_in_tick s), (transaction_made_in_tick s'); lia.
  - intros Hf. rewrite Hf in Hr.
    destruct (transaction_made_in_tick s'); lia.
  - intros Hf. rewrite Hf in Hr.
    destruct (transaction_made_in_tick s); lia.
Qed.

Lemma transactions_bounded_by_ticks_witness :
  exists s' out,
    run small_fields impatient_session flat_state = inr (Continue s' out) /\
    (transactions out <= ticks out + 1)%nat /\
    (transaction_made_in_tick flat_state = true ->
     transactions out <= ticks out)%nat /\
    (transaction_made_in_tick s' = false -> transactions out <= ticks out)%nat.
Proof.
  eexists _, _. split; [reflexivity |].
  apply (transactions_bounded_by_ticks small_fields impatient_session
           flat_state).
  reflexivity.
Defined.

Lemma iteration_escape (sim : TradingSimulator) (i : Input) (s : State) :
  key i = 27 ->
  iteration sim i s = inr (Break (set_next_val (drawn sim i s) s)).
Proof. intros Hk. unfold iteration, body, dispatch. rewrite Hk. reflexivity. Qed.

(** X14.  ESC ends the session.  A pass in which ESC is pressed draws a
    price and leaves the loop: nothing is bought, sold or drawn on the
    chart in it, and no input after it is read.  If the passes before it
    end the session (by ESC or by an exception), the session ends as they
    do. *)
Theorem escape_ends_session (sim : TradingSimulator) (pre post : list Input)
    (i : Input) (s : State) :
  key i = 27 ->
  run sim (pre ++ i :: post) s =
  match run sim pre s with
  | inr (Continue s1 _) => inr (Break (set_next_val (drawn sim i s1) s1))
  | other => other
  end.
Proof.
  intros Hk. rewrite run_app.
  destruct (run sim pre s) as [e | [s1 out | s1]]; try reflexivity.
  simpl run. rewrite (iteration_escape _ _ _ Hk). reflexivity.
Qed.

Lemma escape_ends_session_witness :
  run small_fields (impatient_session ++ escape_pass :: impatient_session)
    flat_state =
  match run small_fields impatient_session flat_state with
  | inr (Continue s1 _) =>
      inr (Break (set_next_val (drawn small_fields escape_pass s1) s1))
  | other => other
  end.
Proof.
  apply (escape_ends_session small_fields impatient_session impatient_session
           escape_pass flat_state).
  reflexivity.
Defined.

(** X15.  Keystrokes and the clock never reach the price.  At the end of
    a session that uses up its inputs, the price is the result of the
    generator run over the samples of the passes, from the price at the
    start, with the reference value of the simulator. *)
Theorem session_price_path (sim : TradingSimulator) (script : list Input)
    (s s' : State) (out : list Output) :
  run sim script s = inr (Continue s' out) ->
  next_val s' = price_path (expected_value sim) (sample <$> script) (next_val s).
Proof.
  revert s s' out. induction script as [| i script IH]; intros s s' out.
  - intros [= <- _]. reflexivity.
  - intros [(s1 & _ & [=]) | (s1 & o1 & r2 & Ei & Er & Hr)]%run_cons_inr.
    destruct r2 as [s2 o2 |]; [| discriminate]. injection Hr as -> _.
    rewrite (IH _ _ _ Er).
    apply iteration_inr in Ei as [Hv _]. simpl in Hv. rewrite Hv.
    reflexivity.
Qed.

Lemma session_price_path_witness :
  exists s' out,
    run small_fields impatient_session flat_state = inr (Continue s' out) /\
    next_val s'
    = price_path (expected_value small_fields) (sample <$> impatient_session)
        (next_val flat_state).
Proof.
  eexists _, _. split; [reflexivity |].
  eapply (session_price_path small_fields impatient_session flat_state).
  reflexivity.
Defined.

(** ** The report of a sale *)






(** ** The command line *)

Lemma str_remove_app (c : Z) (a b : list Z) :
  str_remove c (a ++ b) = str_remove c a ++ str_remove c b.
Proof. apply List.filter_app. Qed.

Lemma str_remove_keep (c x : Z) (s : list Z) :
  x <> c -> str_remove c (x :: s) = x :: str_remove c s.
Proof.
  intros H. unfold str_remove. simpl.
  destruct (Z.eqb_spec x c); [contradiction | reflexivity].
Qed.

Lemma str_remove_drop (c : Z) (s : list Z) :
  str_remove c (c :: s) = str_remove c s.
Proof. unfold str_remove. simpl. by rewrite Z.eqb_refl. Qed.

Lemma str_split_nonempty (sep : Z) (s : list Z) : str_split sep s <> [].
Proof.
  destruct s as [| c s]; simpl; [discriminate |].
  destruct (c =? sep); [discriminate |].
  destruct (str_split sep s); discriminate.
Qed.

Lemma str_split_app (sep : Z) (a b : list Z) :
  str_split sep (a ++ sep :: b) = str_split sep a ++ str_split sep b.
Proof.
  induction a as [| c a IH]; simpl.
  - by rewrite Z.eqb_refl.
  - rewrite IH. destruct (c =? sep); [reflexivity |].
    pose proof (str_split_nonempty sep a).
    destruct (str_split sep a); [contradiction | reflexivity].
Qed.

Lemma str_split_length (sep : Z) (s : list Z) :
  length (str_split sep s)
  = S (length (List.filter (fun x => x =? sep) s)).
Proof.
  induction s as [| c s IH]; simpl; [reflexivity |].
  destruct (c =? sep); simpl; [by rewrite IH |].
  pose proof (str_split_nonempty sep s).
  destruct (str_split sep s); [contradiction | exact IH].
Qed.

Lemma tuple_map_app {A B} (f : A -> Exc B) (l1 l2 : list A) :
  tuple_map f (l1 ++ l2) =
  (x <- tuple_map f l1 ;; y <- tuple_map f l2 ;; ret (x ++ y)).
Proof.
  induction l1 as [| a l1 IH]; simpl.
  - destruct (tuple_map f l2); reflexivity.
  - destruct (f a) as [e | n]; simpl; [reflexivity |].
    rewrite IH.
    destruct (tuple_map f l1) as [e | x]; simpl; [reflexivity |].
    destruct (tuple_map f l2) as [e | y]; reflexivity.
Qed.

Lemma tuple_map_length {A B} (f : A -> Exc B) (l : list A) (t : list B) :
  tuple_map f l = inr t -> length t = length l.
Proof.
  revert t. induction l as [| a l IH]; intros t; simpl.
  - by intros [= <-].
  - destruct (f a) as [e | n]; simpl; [discriminate |].
    destruct (tuple_map f l) as [e | ns]; simpl; [discriminate |].
    intros [= <-]. simpl. by rewrite (IH ns).
Qed.

Lemma commas_remove (c : Z) (s : list Z) :
  c <> ord "," -> commas (str_remove c s) = commas s.
Proof.
  intros Hc. unfold commas, str_remove.
  induction s as [| x s IH]; simpl; [reflexivity |].
  destruct (Z.eqb_spec x c) as [-> | Hx]; simpl.
  - destruct (Z.eqb_spec c (ord ",")); [contradiction | exact IH].
  - destruct (x =? ord ","); simpl; by rewrite IH.
Qed.

Lemma stripped_app (a b : list Z) :
  stripped (a ++ b) = stripped a ++ stripped b.
Proof. unfold stripped. by rewrite !str_remove_app. Qed.

Lemma stripped_keep (x : Z) (s : list Z) :
  x <> ord "(" -> x <> ord ")" -> x <> ord " " ->
  stripped (x :: s) = x :: stripped s.
Proof.
  intros H1 H2 H3. unfold stripped. by rewrite !str_remove_keep.
Qed.

Lemma stripped_drop (c : Z) (s : list Z) :
  c = ord "(" \/ c = ord ")" \/ c = ord " " ->
  stripped (c :: s) = stripped s.
Proof.
  unfold stripped. intros [-> | [-> | ->]].
  - by rewrite str_remove_drop.
  - rewrite (str_remove_keep (ord "(")) by discriminate.
    by rewrite str_remove_drop.
  - rewrite (str_remove_keep (ord "(")) by discriminate.
    rewrite (str_remove_keep (ord ")")) by discriminate.
    by rewrite str_remove_drop.
Qed.

Lemma commas_stripped (s : list Z) : commas (stripped s) = commas s.
Proof. unfold stripped. by rewrite !commas_remove by discriminate. Qed.

(** X17.  [tuple_type] reads a string piece by piece: the tuple of
    [a + "," + b] is the tuple of [a] followed by the tuple of [b], and an
    exception of [int] in [a] comes before one in [b]; this holds whatever
    the builtin [int] does with a piece. *)
Theorem tuple_type_comma (int : list Z -> Exc Z) (a b : list Z) :
  tuple_type int (a ++ ord "," :: b) =
  (x <- tuple_type int a ;; y <- tuple_type int b ;; ret (x ++ y)).
Proof.
  unfold tuple_type.
  rewrite stripped_app, stripped_keep by discriminate.
  rewrite str_split_app. apply tuple_map_app.
Qed.

(** X18.  [tuple_type] drops brackets and blanks wherever they stand: an
    opening bracket, a closing bracket or a space at any place of the
    string, inside a number or unmatched, changes neither the tuple nor the
    exception. *)
Theorem tuple_type_ignores (int : list Z -> Exc Z) (c : Z) (a b : list Z) :
  c = ord "(" \/ c = ord ")" \/ c = ord " " ->
  tuple_type int (a ++ c :: b) = tuple_type int (a ++ b).
Proof.
  intros Hc. unfold tuple_type.
  by rewrite !stripped_app, (stripped_drop c b Hc).
Qed.

Lemma tuple_type_ignores_witness :
  tuple_type int_of_digits (height_digits ++ ord " " :: width_digits)
  = tuple_type int_of_digits (height_digits ++ width_digits).
Proof.
  apply (tuple_type_ignores int_of_digits (ord " ") height_digits
           width_digits).
  auto.
Defined.

(** X19.  The tuple that [tuple_type] returns has one entry more than the
    string has commas; it is never empty, and a shape "height,width" is
    not checked to have two entries. *)
Theorem tuple_type_length (int : list Z -> Exc Z) (value t : list Z) :
  tuple_type int value = inr t -> length t = S (commas value).
Proof.
  unfold tuple_type. intros H%tuple_map_length.
  rewrite H, str_split_length. f_equal. apply commas_stripped.
Qed.

Lemma tuple_type_length_witness :
  tuple_type int_of_digits bracketed_shape = inr [250; 1000] /\
  length [250; 1000] = S (commas bracketed_shape).
Proof.
  split; [reflexivity |].
  apply (tuple_type_length int_of_digits bracketed_shape).
  reflexivity.
Defined.
